(** * spirit-cat: the Plaid proxy routes

    A shallow embedding of the two pieces of control flow in the Express
    router that proxies the Plaid API:

    - the cursor-paginated [while (hasMore)] loop of
      [router.get('/transactions')] together with its post-processing
      ([compareTxnsByDateAscending], [recently_added]);
    - the recursive promise chain [getAssetReportWithRetries].

    The remote Plaid client is an external collaborator.  It is modelled
    as a deterministic state machine over an abstract world: a call takes
    the current world and a request, and yields either a response or a
    rejection together with the next world.  [await] on a rejected call
    throws; the [async] body then rejects and [.catch(next)] hands the
    thrown value to [next].  Loops that the provider can keep alive for
    ever are given a fuel argument; running out of fuel is reported as
    its own outcome and is never confused with a result. *)

From Stdlib Require Import ZArith String Ascii List Sorted Permutation Lia.
From stdpp Require Import base option list strings pretty gmap.

Local Open Scope Z_scope.

(** ** JavaScript data *)

(** A cursor is [null] (the start of the feed) or an opaque string. *)
Definition Cursor : Type := option string.

(** The fields of a Plaid transaction that the route reads. *)
Record Transaction : Type := mkTransaction {
  transaction_id : string;
  date : string;
  amount : Z
}.

Record RemovedTransaction : Type := mkRemoved {
  removed_transaction_id : string
}.

(** [response.data] of [client.transactionsSync]. *)
Record SyncData : Type := mkSyncData {
  added : list Transaction;
  modified : list Transaction;
  removed : list RemovedTransaction;
  has_more : bool;
  next_cursor : Cursor
}.

(** The request object built at the top of every iteration. *)
Record SyncRequest : Type := mkSyncRequest {
  access_token : string;
  cursor : Cursor
}.

(** [{ asset_report_token }] *)
Record AssetReportRequest : Type := mkAssetReportRequest {
  asset_report_token : string
}.

(** What a client call settles with: a response, or a rejection. *)
Inductive Settled (A E : Type) : Type :=
| Resolves (a : A)
| Rejects (e : E).
Arguments Resolves {A E} a.
Arguments Rejects {A E} e.

(** The remote client, as the routes use it.  [World] is whatever the
    provider's answers depend on; [Err] is what a failed call rejects
    with; [Report] is a successful [assetReportGet] response.
    [findAccessToken] stands for [AccessToken.findOne({ where: { userId } })]
    followed by the [.access_token] projection. *)
Class PlaidClient (World Err Report : Type) : Type := {
  transactionsSync : World -> SyncRequest -> Settled SyncData Err * World;
  assetReportGet : World -> AssetReportRequest -> Settled Report Err * World;
  findAccessToken : World -> Z -> option string
}.

(** A value thrown inside an [async] body: an [Error] built by the route
    itself, or the rejection of an awaited client call. *)
Inductive Thrown (Err : Type) : Type :=
| JsError (message : string)
| ClientRejection (e : Err).
Arguments JsError {Err} message.
Arguments ClientRejection {Err} e.

(** How a piece of sequential code ends. *)
Inductive Completion (A Err : Type) : Type :=
| Returned (a : A)
| Threw (t : Thrown Err)
| OutOfFuel.
Arguments Returned {A Err} a.
Arguments Threw {A Err} t.
Arguments OutOfFuel {A Err}.

(** ** The sync loop of [/transactions] *)

Module Sync.

(** What the loop does to the outside, in order: a [transactionsSync]
    call with its request and what it settled with, and the
    [prettyPrintResponse] log line after a successful page. *)
Inductive Event (Err : Type) : Type :=
| EvFetch (req : SyncRequest) (res : Settled SyncData Err)
| EvPrint (data : SyncData).
Arguments EvFetch {Err} req res.
Arguments EvPrint {Err} data.

(** The loop variables. *)
Record Vars : Type := mkVars {
  v_cursor : Cursor;
  v_added : list Transaction;
  v_modified : list Transaction;
  v_removed : list RemovedTransaction;
  v_hasMore : bool
}.

(** [let cursor = null; let added = []; ...; let hasMore = true;] *)
Definition init : Vars :=
  {| v_cursor := None; v_added := []; v_modified := [];
     v_removed := []; v_hasMore := true |}.

(** The body of the loop after a successful [await]. *)
Definition merge (vs : Vars) (data : SyncData) : Vars :=
  {| v_added := v_added vs ++ added data;
     v_modified := v_modified vs ++ modified data;
     v_removed := v_removed vs ++ removed data;
     v_hasMore := has_more data;
     v_cursor := next_cursor data |}.

Section Loop.
Context {World Err Report : Type} `{!PlaidClient World Err Report}.

(** [while (hasMore) { ... }] *)
Fixpoint loop (fuel : nat) (token : string) (w : World) (vs : Vars)
  : Completion Vars Err * list (Event Err) :=
  if v_hasMore vs then
    match fuel with
    | O => (OutOfFuel, [])
    | S fuel' =>
        let req := {| access_token := token; cursor := v_cursor vs |} in
        match transactionsSync w req with
        | (Resolves data, w') =>
            let (c, evs) := loop fuel' token w' (merge vs data) in
            (c, EvFetch req (Resolves data) :: EvPrint data :: evs)
        | (Rejects e, _) =>
            (Threw (ClientRejection e), [EvFetch req (Rejects e)])
        end
    end
  else (Returned vs, []).

(** The loop from its initial variables. *)
Definition sync (fuel : nat) (token : string) (w : World)
  : Completion Vars Err * list (Event Err) :=
  loop fuel token w init.

End Loop.

(** The fetch calls of a trace, in order. *)
Fixpoint fetches {Err} (evs : list (Event Err))
  : list (SyncRequest * Settled SyncData Err) :=
  match evs with
  | [] => []
  | EvFetch req res :: evs' => (req, res) :: fetches evs'
  | EvPrint _ :: evs' => fetches evs'
  end.

(** The pages of the fetch calls that resolved, in order. *)
Fixpoint pages_of {Err} (fs : list (SyncRequest * Settled SyncData Err))
  : list SyncData :=
  match fs with
  | [] => []
  | (_, Resolves p) :: fs' => p :: pages_of fs'
  | (_, Rejects _) :: fs' => pages_of fs'
  end.

(** The calls of a run that is served the pages [ps] from cursor [c]. *)
Fixpoint calls {Err} (token : string) (c : Cursor) (ps : list SyncData)
  : list (SyncRequest * Settled SyncData Err) :=
  match ps with
  | [] => []
  | p :: ps' =>
      ({| access_token := token; cursor := c |}, Resolves p)
        :: calls token (next_cursor p) ps'
  end.

(** The runs of the loop, told without the provider: from the variables
    [vs], how the loop ends and which fetch calls it makes. *)
Inductive Run {Err} (token : string)
  : Vars -> Completion Vars Err -> list (SyncRequest * Settled SyncData Err) -> Prop :=
| run_done vs :
    v_hasMore vs = false ->
    Run token vs (Returned vs) []
| run_page vs p c fs :
    v_hasMore vs = true ->
    Run token (merge vs p) c fs ->
    Run token vs c
      (({| access_token := token; cursor := v_cursor vs |}, Resolves p) :: fs)
| run_fail vs e :
    v_hasMore vs = true ->
    Run token vs (Threw (ClientRejection e))
      [({| access_token := token; cursor := v_cursor vs |}, Rejects e)]
| run_fuel vs :
    v_hasMore vs = true ->
    Run token vs OutOfFuel [].

End Sync.

(** ** Arrays

    JavaScript arrays are mutable objects held by reference.  The
    post-processing of [/transactions] copies, sorts in place and slices,
    so arrays live in a heap and the three operations are heap programs. *)

Module Arrays.

Abbreviation Ref := nat.
Abbreviation Heap := (gmap nat (list Transaction)).

(** Heap programs. *)
Definition M (A : Type) : Type := Heap -> A * Heap.

Definition ret {A} (a : A) : M A := fun h => (a, h).

Definition bind {A B} (m : M A) (k : A -> M B) : M B :=
  fun h => let (a, h') := m h in k a h'.

Notation "'let*' x ':=' m 'in' k" := (bind m (fun x => k))
  (at level 10, x name, m at level 100, k at level 200).

(** A new array object holding [l]. *)
Definition alloc (l : list Transaction) : M Ref :=
  fun h => let r := fresh (dom h) in (r, <[r := l]> h).

Definition read (r : Ref) : M (list Transaction) :=
  fun h => (default [] (h !! r), h).

Definition write (r : Ref) (l : list Transaction) : M unit :=
  fun h => (tt, <[r := l]> h).

(** [(a, b) => (a.date > b.date) - (a.date < b.date)]: the booleans are
    coerced to 1 and 0.  Dates are ISO strings ([YYYY-MM-DD]); on such
    ASCII strings the byte-wise [String.ltb] is JavaScript's comparison
    by code units. *)
Definition compareTxnsByDateAscending (a b : Transaction) : Z :=
  Z.b2z (String.ltb (date b) (date a)) - Z.b2z (String.ltb (date a) (date b)).

(** [Array.prototype.sort] is a stable sort: with a consistent comparator
    its result is the one stable ordering of the elements.  That ordering
    is computed here by stable insertion: an element moves only past
    elements the comparator puts strictly before it. *)
Fixpoint insert (cmp : Transaction -> Transaction -> Z) (x : Transaction)
  (l : list Transaction) : list Transaction :=
  match l with
  | [] => [x]
  | y :: l' => if 0 <? cmp x y then y :: insert cmp x l' else x :: y :: l'
  end.

Definition sorted_by (cmp : Transaction -> Transaction -> Z)
  (l : list Transaction) : list Transaction :=
  foldr (insert cmp) [] l.

(** The elements of [l.slice(start)]: a negative [start] counts from the
    end and is clamped at the first element, a positive one is clamped at
    the length. *)
Definition sliced (start : Z) (l : list Transaction) : list Transaction :=
  let len := Z.of_nat (length l) in
  let k := if start <? 0 then Z.max (len + start) 0 else Z.min start len in
  drop (Z.to_nat k) l.

(** [[...a]]: a new array with the elements of [a]. *)
Definition spread (a : Ref) : M Ref :=
  let* l := read a in alloc l.

(** [a.sort(cmp)]: sorts [a] itself and returns it. *)
Definition sort (cmp : Transaction -> Transaction -> Z) (a : Ref) : M Ref :=
  let* l := read a in let* u := write a (sorted_by cmp l) in ret a.

(** [a.slice(start)]: a new array. *)
Definition slice (start : Z) (a : Ref) : M Ref :=
  let* l := read a in alloc (sliced start l).

(** [[...added].sort(compareTxnsByDateAscending).slice(-8)] *)
Definition recently_added (added_ref : Ref) : M Ref :=
  let* copy := spread added_ref in
  let* s := sort compareTxnsByDateAscending copy in
  slice (-8) s.

(** The same post-processing on the elements alone. *)
Definition recent (l : list Transaction) : list Transaction :=
  sliced (-8) (sorted_by compareTxnsByDateAscending l).

(** Ascending by date. *)
Definition date_le (a b : Transaction) : Prop :=
  String.leb (date a) (date b) = true.

End Arrays.

(** ** The [/transactions] route *)

Module Route.

(** How the route handler ends: [response.json({ latest_transactions })],
    [next(error)] from [.catch(next)], or still looping when the fuel ran
    out. *)
Inductive Response (Err : Type) : Type :=
| Json (latest_transactions : list Transaction)
| Next (t : Thrown Err)
| Looping.
Arguments Json {Err} latest_transactions.
Arguments Next {Err} t.
Arguments Looping {Err}.

(** What is left when the handler has run: the response, the trace of the
    loop, and the array heap with the reference that [added] holds. *)
Record Outcome (Err : Type) : Type := mkOutcome {
  response : Response Err;
  trace : list (Sync.Event Err);
  added_ref : option Arrays.Ref;
  heap : Arrays.Heap
}.
Arguments mkOutcome {Err}.
Arguments response {Err}.
Arguments trace {Err}.
Arguments added_ref {Err}.
Arguments heap {Err}.

Section Handler.
Context {World Err Report : Type} `{!PlaidClient World Err Report}.

(** The statements after the loop. *)
Definition respond (vs : Sync.Vars) (evs : list (Sync.Event Err))
  : Outcome Err :=
  let (a, h0) := Arrays.alloc (Sync.v_added vs) ∅ in
  let (r, h1) := Arrays.recently_added a h0 in
  mkOutcome (Json (default [] (h1 !! r))) evs (Some a) h1.

(** [router.get('/transactions', requireToken, ...)] for the user
    [request.user.id]. *)
Definition transactions (fuel : nat) (w : World) (id : Z) : Outcome Err :=
  match findAccessToken w id with
  | None => mkOutcome (Next (JsError "No access token found")) [] None ∅
  | Some token =>
      match Sync.sync fuel token w with
      | (Returned vs, evs) => respond vs evs
      | (Threw t, evs) => mkOutcome (Next t) evs None ∅
      | (OutOfFuel, evs) => mkOutcome Looping evs None ∅
      end
  end.

End Handler.

End Route.

(** ** Polling for the asset report *)

Module Poll.

(** The state of a promise once nothing is left to run. *)
Inductive Promise (A : Type) : Type :=
| Pending
| Fulfilled (v : A)
| Rejected (reason : string).
Arguments Pending {A}.
Arguments Fulfilled {A} v.
Arguments Rejected {A} reason.

(** What one poll does, in order: an invocation with its [ms] and
    [retriesLeft], the [assetReportGet] call and what it settled with, a
    [setTimeout] of [ms] running to its callback, a call of [reject]. *)
Inductive Event (Err Report : Type) : Type :=
| EvCall (ms retriesLeft : Z)
| EvAttempt (req : AssetReportRequest) (res : Settled Report Err)
| EvTimeout (ms : Z)
| EvReject (reason : string).
Arguments EvCall {Err Report} ms retriesLeft.
Arguments EvAttempt {Err Report} req res.
Arguments EvTimeout {Err Report} ms.
Arguments EvReject {Err Report} reason.

Definition out_of_retries : string :=
  "Ran out of retries while polling for asset report".

(** [inner.then(resolve)] seen from the promise that [resolve] belongs
    to, when nothing else can settle it: a fulfilled [inner] fulfils it
    with the same value; a rejected [inner] rejects only the promise that
    [.then] returns, which nobody holds, and [resolve] is never called. *)
Definition then_resolve {A} (inner : option (Promise A)) : option (Promise A) :=
  match inner with
  | Some (Fulfilled v) => Some (Fulfilled v)
  | Some (Rejected _) => Some Pending
  | Some Pending => Some Pending
  | None => None
  end.

Section Retries.
Context {World Err Report : Type} `{!PlaidClient World Err Report}.

(** The promise returned by one invocation, and the trace.  [None]
    means the fuel ran out while the poll was still active. *)
Fixpoint getAssetReportWithRetries (fuel : nat) (w : World)
  (token : string) (ms retriesLeft : Z)
  : option (Promise Report) * list (Event Err Report) :=
  match fuel with
  | O => (None, [])
  | S fuel' =>
      let request := {| asset_report_token := token |} in
      match assetReportGet w request with
      | (Resolves v, _) =>
          (Some (Fulfilled v),
           [EvCall ms retriesLeft; EvAttempt request (Resolves v)])
      | (Rejects e, w') =>
          if retriesLeft =? 1 then
            (Some (Rejected out_of_retries),
             [EvCall ms retriesLeft; EvAttempt request (Rejects e);
              EvTimeout ms; EvReject out_of_retries])
          else
            let (inner, evs) :=
              getAssetReportWithRetries fuel' w' token ms (retriesLeft - 1) in
            (then_resolve inner,
             EvCall ms retriesLeft :: EvAttempt request (Rejects e)
               :: EvTimeout ms :: evs)
      end
  end.

(** [ms = 1000, retriesLeft = 20] *)
Definition getAssetReportWithRetries_default (fuel : nat) (w : World)
  (token : string) : option (Promise Report) * list (Event Err Report) :=
  getAssetReportWithRetries fuel w token 1000 20.

End Retries.

(** Projections of a trace. *)
Fixpoint attempts {Err Report} (evs : list (Event Err Report))
  : list (Settled Report Err) :=
  match evs with
  | [] => []
  | EvAttempt _ res :: evs' => res :: attempts evs'
  | _ :: evs' => attempts evs'
  end.

Fixpoint delays {Err Report} (evs : list (Event Err Report)) : list Z :=
  match evs with
  | [] => []
  | EvTimeout ms :: evs' => ms :: delays evs'
  | _ :: evs' => delays evs'
  end.

Fixpoint budgets {Err Report} (evs : list (Event Err Report)) : list Z :=
  match evs with
  | [] => []
  | EvCall _ n :: evs' => n :: budgets evs'
  | _ :: evs' => budgets evs'
  end.

Fixpoint rejections {Err Report} (evs : list (Event Err Report)) : list string :=
  match evs with
  | [] => []
  | EvReject r :: evs' => r :: rejections evs'
  | _ :: evs' => rejections evs'
  end.

End Poll.

(** ** What the provider answers *)

Module Provider.

Section Answers.
Context {World Err Report : Type} `{!PlaidClient World Err Report}.

(** From world [w], asked with [token] at cursor [c] and then at each
    cursor it hands out, the provider answers with the pages [ps], one
    per call. *)
Fixpoint serves (w : World) (token : string) (c : Cursor)
  (ps : list SyncData) : Prop :=
  match ps with
  | [] => True
  | p :: ps' =>
      let r := transactionsSync w {| access_token := token; cursor := c |} in
      r.1 = Resolves p /\ serves r.2 token (next_cursor p) ps'
  end.

(** From world [w], successive [assetReportGet] calls for [token]
    settle with [rs], one per call. *)
Fixpoint answers (w : World) (token : string)
  (rs : list (Settled Report Err)) : Prop :=
  match rs with
  | [] => True
  | r :: rs' =>
      let a := assetReportGet w {| asset_report_token := token |} in
      a.1 = r /\ answers a.2 token rs'
  end.

End Answers.

End Provider.

(** ** A scripted provider

    A provider that plays back fixed lists of answers whatever it is
    asked: the instance on which the routes are run on concrete inputs. *)

Module Scripted.

Record World : Type := mkWorld {
  sync_script : list (Settled SyncData string);
  report_script : list (Settled Z string);
  tokens : list (Z * string)
}.

Definition script_over : string := "script exhausted".

Definition play_sync (w : World) (req : SyncRequest)
  : Settled SyncData string * World :=
  match sync_script w with
  | [] => (Rejects script_over, w)
  | r :: rs => (r, mkWorld rs (report_script w) (tokens w))
  end.

Definition play_report (w : World) (req : AssetReportRequest)
  : Settled Z string * World :=
  match report_script w with
  | [] => (Rejects script_over, w)
  | r :: rs => (r, mkWorld (sync_script w) rs (tokens w))
  end.

Definition lookup_token (w : World) (id : Z) : option string :=
  snd <$> List.find (fun p => fst p =? id) (tokens w).

#[export] Instance client : PlaidClient World string Z := {|
  transactionsSync := play_sync;
  assetReportGet := play_report;
  findAccessToken := lookup_token
|}.

(** The transactions and pages of the three-page scenario. *)
Definition txA : Transaction := mkTransaction "A" "2024-01-02" 10.
Definition txB : Transaction := mkTransaction "B" "2024-01-01" 20.

Definition page1 : SyncData := mkSyncData [txA; txB] [] [] true (Some "c1").
Definition page2 : SyncData := mkSyncData [] [txA] [] true (Some "c2").
Definition page3 : SyncData := mkSyncData [] [] [mkRemoved "B"] false (Some "c3").

Definition three_pages : World :=
  mkWorld [Resolves page1; Resolves page2; Resolves page3] [] [(7, "access-7")].

(** The second page fails. *)
Definition broken_feed : World :=
  mkWorld [Resolves page1; Rejects "503"; Resolves page3] [] [(7, "access-7")].

(** A report that is ready on the third attempt. *)
Definition ready_on_third : World :=
  mkWorld [] [Rejects "not ready"; Rejects "not ready"; Resolves 42] [].

(** A report that is never ready. *)
Definition never_ready : World :=
  mkWorld [] (repeat (Rejects "not ready") 30) [].

End Scripted.

(** ** Cancellation

    A caller that wants to cancel raises a signal while the callee is
    suspended.  [raised k] is the state of that signal while the [k]-th
    suspension of the run (an awaited client call or a timer) is in
    flight. *)

Module Cancellation.

Definition Signal : Type := nat -> bool.

Definition never : Signal := fun _ => false.

Section Calls.
Context {World Err Report : Type} `{!PlaidClient World Err Report}.

(** [getAssetReportWithRetries(client, token, ms, retriesLeft, signal)]:
    the function declares four parameters and does not read
    [arguments], so a further argument is dropped by the call. *)
Definition getAssetReportWithRetries_signalled (signal : Signal)
  (fuel : nat) (w : World) (token : string) (ms retriesLeft : Z)
  : option (Poll.Promise Report) * list (Poll.Event Err Report) :=
  Poll.getAssetReportWithRetries fuel w token ms retriesLeft.

(** The [/transactions] handler for a request whose client raises
    [signal]: the handler reads [request.user] and nothing else of the
    request. *)
Definition transactions_signalled (signal : Signal)
  (fuel : nat) (w : World) (id : Z) : Route.Outcome Err :=
  Route.transactions fuel w id.

(** What a poll that honoured a signal raised during its first delay
    would show: a rejection that is not the exhaustion one, and no
    attempt after the first. *)
Definition cancelled_in_first_delay
  (run : option (Poll.Promise Report) * list (Poll.Event Err Report)) : Prop :=
  (exists reason, run.1 = Some (Poll.Rejected reason) /\
                  reason <> Poll.out_of_retries) /\
  (length (Poll.attempts run.2) <= 1)%nat.

End Calls.

(** The signal is raised while the first delay is in flight: suspension 0
    is the first awaited call, suspension 1 the first timer. *)
Definition during_first_delay : Signal := fun k => (1 <=? k)%nat.

End Cancellation.

(** ** Process configuration *)

Module Config.

(** [v || fallback] where [v] is [process.env.X]: [undefined] when the
    variable is not set, and the empty string is falsy too. *)
Definition or_else (v : option string) (fallback : string) : string :=
  match v with
  | Some (String c s) => String c s
  | Some EmptyString => fallback
  | None => fallback
  end.

(** [s.split(sep)] for a separator of one character: the pieces between
    the separators, empty pieces included; the empty string gives one
    empty piece. *)
Fixpoint split (sep : ascii) (s : string) : list string :=
  match s with
  | EmptyString => [EmptyString]
  | String c s' =>
      if Ascii.eqb c sep then EmptyString :: split sep s'
      else match split sep s' with
           | [] => [String c EmptyString]
           | piece :: pieces => String c piece :: pieces
           end
  end.

Definition comma : ascii := ","%char.

(** [(process.env.PLAID_PRODUCTS || Products.Transactions).split(',')];
    [Products.Transactions] is a constant of the plaid package. *)
Definition PLAID_PRODUCTS (Products_Transactions : string)
  (env : option string) : list string :=
  split comma (or_else env Products_Transactions).

(** [(process.env.PLAID_COUNTRY_CODES || 'US').split(',')] *)
Definition PLAID_COUNTRY_CODES (env : option string) : list string :=
  split comma (or_else env "US").

(** [process.env.PLAID_ENV || 'sandbox'] *)
Definition PLAID_ENV (env : option string) : string := or_else env "sandbox".

(** [process.env.PLAID_REDIRECT_URI || ''] *)
Definition PLAID_REDIRECT_URI (env : option string) : string := or_else env "".

(** [process.env.PLAID_ANDROID_PACKAGE_NAME || ''] *)
Definition PLAID_ANDROID_PACKAGE_NAME (env : option string) : string :=
  or_else env "".

(** The environment variables the router reads. *)
Record Environment : Type := mkEnvironment {
  env_PLAID_PRODUCTS : option string;
  env_PLAID_COUNTRY_CODES : option string;
  env_PLAID_REDIRECT_URI : option string;
  env_PLAID_ANDROID_PACKAGE_NAME : option string
}.

End Config.

(** ** The [/create_link_token] route *)

Module LinkToken.

(** The JavaScript values that reading a property of a number and
    [String(...)] of the result can involve. *)
Inductive JsValue : Type :=
| JsUndefined
| JsNumber (n : Z)
| JsString (s : string)
| JsFunction (name : string).

(** The properties a number inherits: the methods of [Number.prototype]
    and of [Object.prototype]. *)
Definition number_properties : list string :=
  ["constructor"; "toExponential"; "toFixed"; "toLocaleString";
   "toPrecision"; "toString"; "valueOf"; "hasOwnProperty";
   "isPrototypeOf"; "propertyIsEnumerable"]%string.

(** [const { key } = n] for a number [n]: the number is wrapped and the
    property is looked up on the prototype chain; a number has no
    properties of its own. *)
Definition number_get (n : Z) (key : string) : JsValue :=
  if bool_decide (key ∈ number_properties) then JsFunction key
  else JsUndefined.

(** [String(v)] *)
Definition to_String (v : JsValue) : string :=
  match v with
  | JsUndefined => "undefined"
  | JsNumber n => pretty n
  | JsString s => s
  | JsFunction name => "function " +:+ name +:+ "() { [native code] }"
  end.

Record User : Type := mkUser { client_user_id : string }.

(** The [configs] object; the two optional fields are absent when [None]. *)
Record Configs : Type := mkConfigs {
  user : User;
  client_name : string;
  products : list string;
  country_codes : list string;
  language : string;
  redirect_uri : option string;
  android_package_name : option string
}.

(** [if (X !== '') { configs.field = X; }] *)
Definition unless_empty (s : string) : option string :=
  match s with
  | EmptyString => None
  | String _ _ => Some s
  end.

(** The [configs] built for the user whose [request.user.id] is [id]. *)
Definition configs_for (Products_Transactions : string)
  (env : Config.Environment) (id : Z) : Configs :=
  let user_id := number_get id "user_id" in
  {| user := {| client_user_id := to_String user_id |};
     client_name := "Spirit Cat";
     products :=
       Config.PLAID_PRODUCTS Products_Transactions (Config.env_PLAID_PRODUCTS env);
     country_codes := Config.PLAID_COUNTRY_CODES (Config.env_PLAID_COUNTRY_CODES env);
     language := "en";
     redirect_uri :=
       unless_empty (Config.PLAID_REDIRECT_URI (Config.env_PLAID_REDIRECT_URI env));
     android_package_name :=
       unless_empty
         (Config.PLAID_ANDROID_PACKAGE_NAME
            (Config.env_PLAID_ANDROID_PACKAGE_NAME env)) |}.

(** [client.linkTokenCreate]; [LinkData] is [createTokenResponse.data]. *)
Class LinkClient (World Err LinkData : Type) : Type := {
  linkTokenCreate : World -> Configs -> Settled LinkData Err * World
}.

Inductive Response (Err LinkData : Type) : Type :=
| Json (data : LinkData)
| Next (e : Err).
Arguments Json {Err LinkData} data.
Arguments Next {Err LinkData} e.

Section Handler.
Context {World Err LinkData : Type} `{!LinkClient World Err LinkData}.

(** [router.get('/create_link_token', requireToken, ...)]: the response
    and the [configs] that were sent. *)
Definition create_link_token (Products_Transactions : string)
  (env : Config.Environment) (w : World) (id : Z)
  : Response Err LinkData * Configs :=
  let configs := configs_for Products_Transactions env id in
  match linkTokenCreate w configs with
  | (Resolves data, _) => (Json data, configs)
  | (Rejects e, _) => (Next e, configs)
  end.

End Handler.

End LinkToken.

(** ** The error-handling middleware *)

Module Errors.

Inductive Raised : Type := TypeError.

Section Format.
Context {Value : Type}.

(** [error.response] of a failed Plaid call: the parsed body of the
    reply ([undefined] when there is none) and the HTTP status. *)
Record ErrorResponse : Type := mkErrorResponse {
  data : option (gmap string Value);
  status : Value
}.

(** [{ error: ... }] *)
Record ErrorBody : Type := mkErrorBody { error : gmap string Value }.

(** [(response) => console.log(util.inspect(response.data, ...))]: what
    is logged, or the [TypeError] of reading [.data] of [undefined]. *)
Definition prettyPrintResponse (response : option ErrorResponse)
  : Raised + option (gmap string Value) :=
  match response with
  | None => inl TypeError
  | Some r => inr (data r)
  end.

(** [(error) => ({ error: { ...error.data, status_code: error.status } })]:
    spreading [undefined] adds nothing; [status_code] is written last. *)
Definition formatError (error : option ErrorResponse) : Raised + ErrorBody :=
  match error with
  | None => inl TypeError
  | Some r =>
      inr {| error := <["status_code"%string := status r]> (default ∅ (data r)) |}
  end.

(** How the middleware ends: a JSON reply after the log line, or a throw. *)
Inductive Handled : Type :=
| Replied (logged : option (gmap string Value)) (body : ErrorBody)
| Crashed (t : Raised).

(** [router.use('/', function(error, request, response, next) {...})],
    given [error.response]. *)
Definition error_middleware (error_response : option ErrorResponse) : Handled :=
  match prettyPrintResponse error_response with
  | inl t => Crashed t
  | inr logged =>
      match formatError error_response with
      | inl t => Crashed t
      | inr body => Replied logged body
      end
  end.

(** [error.response] of a thrown value: an [Error] made by a route has no
    such property; a rejection of the client has the one it carries. *)
Definition thrown_response {Err} (response_of : Err -> option ErrorResponse)
  (t : Thrown Err) : option ErrorResponse :=
  match t with
  | JsError _ => None
  | ClientRejection e => response_of e
  end.

(** What a [GET /transactions] ends with once the middleware has run. *)
Inductive Served : Type :=
| Latest (latest_transactions : list Transaction)
| Failed (h : Handled)
| StillLooping.

End Format.
Arguments ErrorResponse : clear implicits.
Arguments ErrorBody : clear implicits.
Arguments Handled : clear implicits.
Arguments Served : clear implicits.

Section Serve.
Context {World Err Report Value : Type} `{!PlaidClient World Err Report}.

Definition transactions_served (response_of : Err -> option (ErrorResponse Value))
  (fuel : nat) (w : World) (id : Z) : Served Value :=
  match Route.response (Route.transactions fuel w id) with
  | Route.Json l => Latest l
  | Route.Next t => Failed (error_middleware (thrown_response response_of t))
  | Route.Looping => StillLooping
  end.

End Serve.

End Errors.

(** ** The [/assets] route *)

Module Assets.

Record ReportUser : Type := mkReportUser {
  client_user_id : string;
  first_name : string;
  middle_name : string;
  last_name : string;
  ssn : string;
  phone_number : string;
  email : string
}.

Record Options : Type := mkOptions {
  client_report_id : string;
  user : ReportUser
}.

Definition report_options : Options :=
  {| client_report_id := "Custom Report ID #123";
     user := {| client_user_id := "Custom User ID #456";
                first_name := "Alice";
                middle_name := "Bobcat";
                last_name := "Cranberry";
                ssn := "123-45-6789";
                phone_number := "555-123-4567";
                email := "alice@example.com" |} |}.

Record Configs : Type := mkConfigs {
  access_tokens : list (option string);
  days_requested : Z;
  options : Options
}.

(** [assetReportCreate] resolves with [data.asset_report_token];
    [assetReportPdfGet], which the handler always calls with
    [{ responseType: 'arraybuffer' }], with the PDF buffer. *)
Class AssetClient (World Err Pdf : Type) : Type := {
  assetReportCreate : World -> Configs -> Settled string Err * World;
  assetReportPdfGet : World -> AssetReportRequest -> Settled Pdf Err * World
}.

Inductive Event (Err Report Pdf : Type) : Type :=
| EvCreate (configs : Configs) (res : Settled string Err)
| EvPrintCreate (token : string)
| EvPoll (e : Poll.Event Err Report)
| EvPdf (req : AssetReportRequest) (res : Settled Pdf Err)
| EvPrintReport (report : Report)
| EvPrintPdf (pdf : Pdf).
Arguments EvCreate {Err Report Pdf} configs res.
Arguments EvPrintCreate {Err Report Pdf} token.
Arguments EvPoll {Err Report Pdf} e.
Arguments EvPdf {Err Report Pdf} req res.
Arguments EvPrintReport {Err Report Pdf} report.
Arguments EvPrintPdf {Err Report Pdf} pdf.

(** How the handler ends: [response.json({ json, pdf })]; [next] with a
    rejection of the client; [next] with the string a rejected poll was
    rejected with; suspended for ever on an [await] whose promise never
    settles; or still polling when the fuel ran out. *)
Inductive Response (Err Report : Type) : Type :=
| Json (json : Report) (pdf : string)
| Next (e : Err)
| NextReason (reason : string)
| Hangs
| Polling.
Arguments Json {Err Report} json pdf.
Arguments Next {Err Report} e.
Arguments NextReason {Err Report} reason.
Arguments Hangs {Err Report}.
Arguments Polling {Err Report}.

Section Handler.
Context {World Err Report Pdf : Type}
  `{!PlaidClient World Err Report} `{!AssetClient World Err Pdf}.

(** The provider's world once the calls of a poll have been made. *)
Fixpoint world_after (fuel : nat) (w : World) (token : string)
  (retriesLeft : Z) : World :=
  match fuel with
  | O => w
  | S fuel' =>
      match assetReportGet w {| asset_report_token := token |} with
      | (Resolves _, w') => w'
      | (Rejects _, w') =>
          if retriesLeft =? 1 then w'
          else world_after fuel' w' token (retriesLeft - 1)
      end
  end.

(** The provider's world once [k] calls of [assetReportGet] for [token]
    have been answered. *)
Fixpoint after_calls (k : nat) (w : World) (token : string) : World :=
  match k with
  | O => w
  | S k' =>
      after_calls k' (assetReportGet w {| asset_report_token := token |}).2 token
  end.

(** [router.get('/assets', routeClosed, ...)], the handler itself.
    [ACCESS_TOKEN] is the value of the module variable, [to_base64] is
    [buffer.toString('base64')], and [Report] stands for
    [getResponse.data.report]. *)
Definition assets (to_base64 : Pdf -> string) (fuel : nat)
  (ACCESS_TOKEN : option string) (w : World)
  : Response Err Report * list (Event Err Report Pdf) :=
  let daysRequested := 10 in
  let configs := {| access_tokens := [ACCESS_TOKEN];
                    days_requested := daysRequested;
                    options := report_options |} in
  match assetReportCreate w configs with
  | (Rejects e, _) => (Next e, [EvCreate configs (Rejects e)])
  | (Resolves assetReportToken, w1) =>
      let started :=
        [EvCreate configs (Resolves assetReportToken);
         EvPrintCreate assetReportToken] in
      let (promise, polled) :=
        Poll.getAssetReportWithRetries_default fuel w1 assetReportToken in
      let evs := started ++ map EvPoll polled in
      match promise with
      | None => (Polling, evs)
      | Some Poll.Pending => (Hangs, evs)
      | Some (Poll.Rejected reason) => (NextReason reason, evs)
      | Some (Poll.Fulfilled getResponse) =>
          let w2 := world_after fuel w1 assetReportToken 20 in
          let pdfRequest := {| asset_report_token := assetReportToken |} in
          match assetReportPdfGet w2 pdfRequest with
          | (Rejects e, _) => (Next e, evs ++ [EvPdf pdfRequest (Rejects e)])
          | (Resolves pdfResponse, _) =>
              (Json getResponse (to_base64 pdfResponse),
               evs ++ [EvPdf pdfRequest (Resolves pdfResponse);
                       EvPrintReport getResponse;
                       EvPrintPdf pdfResponse])
          end
      end
  end.

End Handler.

(** The projections of a trace. *)
Fixpoint polled {Err Report Pdf} (evs : list (Event Err Report Pdf))
  : list (Poll.Event Err Report) :=
  match evs with
  | [] => []
  | EvPoll e :: evs' => e :: polled evs'
  | _ :: evs' => polled evs'
  end.

Fixpoint pdf_requests {Err Report Pdf} (evs : list (Event Err Report Pdf))
  : list AssetReportRequest :=
  match evs with
  | [] => []
  | EvPdf req _ :: evs' => req :: pdf_requests evs'
  | _ :: evs' => pdf_requests evs'
  end.

End Assets.

(** ** The transfer routes and the module variables *)

Module Transfer.

(** The module variables, [null] being [None]. *)
Record Globals : Type := mkGlobals {
  ACCESS_TOKEN : option string;
  ACCOUNT_ID : option string;
  PAYMENT_ID : option string;
  AUTHORIZATION_ID : option string;
  TRANSFER_ID : option string
}.

(** [let ACCESS_TOKEN = null; ...] *)
Definition at_startup : Globals := mkGlobals None None None None None.

Record Account : Type := mkAccount { account_id : string }.

Record Address : Type := mkAddress {
  street : string; city : string; region : string;
  postal_code : string; country : string
}.

Record TransferUser : Type := mkTransferUser {
  legal_name : string; email_address : string; address : Address
}.

Definition transfer_user : TransferUser :=
  {| legal_name := "FirstName LastName";
     email_address := "foobar@email.com";
     address := {| street := "123 Main St."; city := "San Francisco";
                   region := "CA"; postal_code := "94053"; country := "US" |} |}.

Record AuthorizationRequest : Type := mkAuthorizationRequest {
  auth_access_token : option string;
  auth_account_id : option string;
  auth_type : string;
  auth_network : string;
  auth_amount : string;
  auth_ach_class : string;
  auth_user : TransferUser
}.

(** [data.authorization.id] of an authorization. *)
Record Authorization : Type := mkAuthorization { authorization_id : string }.

Record TransferRequest : Type := mkTransferRequest {
  tr_access_token : option string;
  tr_account_id : option string;
  tr_authorization_id : option string;
  tr_description : string
}.

(** [data.transfer.id] of a transfer. *)
Record TransferData : Type := mkTransferData { transfer_id : string }.

(** [accountsGet] resolves with [data.accounts]. *)
Class TransferClient (World Err : Type) : Type := {
  accountsGet : World -> option string -> Settled (list Account) Err * World;
  transferAuthorizationCreate :
    World -> AuthorizationRequest -> Settled Authorization Err * World;
  transferCreate : World -> TransferRequest -> Settled TransferData Err * World
}.

(** What the body of a handler throws. *)
Inductive Raised (Err : Type) : Type :=
| TypeError
| Rejection (e : Err).
Arguments TypeError {Err}.
Arguments Rejection {Err} e.

Inductive Response (Err : Type) : Type :=
| JsonAuthorization (data : Authorization)
| JsonTransfer (transfer : TransferData)
| Next (t : Raised Err).
Arguments JsonAuthorization {Err} data.
Arguments JsonTransfer {Err} transfer.
Arguments Next {Err} t.

Inductive Event (Err : Type) : Type :=
| EvAccountsGet (access_token : option string) (res : Settled (list Account) Err)
| EvAuthorize (req : AuthorizationRequest) (res : Settled Authorization Err)
| EvTransfer (req : TransferRequest) (res : Settled TransferData Err)
| EvPrintAuthorization (data : Authorization)
| EvPrintTransfer (data : TransferData).
Arguments EvAccountsGet {Err} access_token res.
Arguments EvAuthorize {Err} req res.
Arguments EvTransfer {Err} req res.
Arguments EvPrintAuthorization {Err} data.
Arguments EvPrintTransfer {Err} data.

(** A handler run: the response, the module variables and the world it
    leaves, and what it did. *)
Record Result (World Err : Type) : Type := mkResult {
  response : Response Err;
  globals : Globals;
  world : World;
  events : list (Event Err)
}.
Arguments mkResult {World Err}.
Arguments response {World Err}.
Arguments globals {World Err}.
Arguments world {World Err}.
Arguments events {World Err}.

Definition set_ACCOUNT_ID (v : option string) (g : Globals) : Globals :=
  mkGlobals (ACCESS_TOKEN g) v (PAYMENT_ID g) (AUTHORIZATION_ID g) (TRANSFER_ID g).

Definition set_AUTHORIZATION_ID (v : option string) (g : Globals) : Globals :=
  mkGlobals (ACCESS_TOKEN g) (ACCOUNT_ID g) (PAYMENT_ID g) v (TRANSFER_ID g).

Definition set_TRANSFER_ID (v : option string) (g : Globals) : Globals :=
  mkGlobals (ACCESS_TOKEN g) (ACCOUNT_ID g) (PAYMENT_ID g) (AUTHORIZATION_ID g) v.

Section Handlers.
Context {World Err : Type} `{!TransferClient World Err}.

(** [router.get('/transfer_authorize', routeClosed, ...)], the handler
    itself. *)
Definition transfer_authorize (g : Globals) (w : World) : Result World Err :=
  match accountsGet w (ACCESS_TOKEN g) with
  | (Rejects e, w1) =>
      mkResult (Next (Rejection e)) g w1
        [EvAccountsGet (ACCESS_TOKEN g) (Rejects e)]
  | (Resolves accounts, w1) =>
      let ev1 := EvAccountsGet (ACCESS_TOKEN g) (Resolves accounts) in
      match accounts with
      | [] => mkResult (Next TypeError) g w1 [ev1]
      | first :: _ =>
          let g1 := set_ACCOUNT_ID (Some (account_id first)) g in
          let req := {| auth_access_token := ACCESS_TOKEN g1;
                        auth_account_id := ACCOUNT_ID g1;
                        auth_type := "debit";
                        auth_network := "ach";
                        auth_amount := "1.00";
                        auth_ach_class := "ppd";
                        auth_user := transfer_user |} in
          match transferAuthorizationCreate w1 req with
          | (Rejects e, w2) =>
              mkResult (Next (Rejection e)) g1 w2
                [ev1; EvAuthorize req (Rejects e)]
          | (Resolves data, w2) =>
              let g2 := set_AUTHORIZATION_ID (Some (authorization_id data)) g1 in
              mkResult (JsonAuthorization data) g2 w2
                [ev1; EvAuthorize req (Resolves data); EvPrintAuthorization data]
          end
      end
  end.

(** [router.get('/transfer_create', routeClosed, ...)], the handler
    itself. *)
Definition transfer_create (g : Globals) (w : World) : Result World Err :=
  let req := {| tr_access_token := ACCESS_TOKEN g;
                tr_account_id := ACCOUNT_ID g;
                tr_authorization_id := AUTHORIZATION_ID g;
                tr_description := "Debit" |} in
  match transferCreate w req with
  | (Rejects e, w1) =>
      mkResult (Next (Rejection e)) g w1 [EvTransfer req (Rejects e)]
  | (Resolves data, w1) =>
      let g1 := set_TRANSFER_ID (Some (transfer_id data)) g in
      mkResult (JsonTransfer data) g1 w1
        [EvTransfer req (Resolves data); EvPrintTransfer data]
  end.

(** The two routes, and requests served one after the other. *)
Inductive Route : Type := TransferAuthorize | TransferCreate.

Definition handle (r : Route) (g : Globals) (w : World) : Result World Err :=
  match r with
  | TransferAuthorize => transfer_authorize g w
  | TransferCreate => transfer_create g w
  end.

Fixpoint serve (rs : list Route) (g : Globals) (w : World)
  : Globals * World * list (Event Err) :=
  match rs with
  | [] => (g, w, [])
  | r :: rs' =>
      let res := handle r g w in
      let '(g', w', evs) := serve rs' (globals res) (world res) in
      (g', w', events res ++ evs)
  end.

End Handlers.

(** The access token each call to the provider was made with. *)
Definition sent_access_token {Err} (ev : Event Err) : option (option string) :=
  match ev with
  | EvAccountsGet t _ => Some t
  | EvAuthorize req _ => Some (auth_access_token req)
  | EvTransfer req _ => Some (tr_access_token req)
  | EvPrintAuthorization _ => None
  | EvPrintTransfer _ => None
  end.

End Transfer.

(** ** More projections of the traces *)

Module Traces.

(** The pages that [prettyPrintResponse] logged during a sync. *)
Fixpoint printed {Err} (evs : list (Sync.Event Err)) : list SyncData :=
  match evs with
  | [] => []
  | Sync.EvPrint data :: evs' => data :: printed evs'
  | Sync.EvFetch _ _ :: evs' => printed evs'
  end.

(** The [ms] each invocation of a poll was given. *)
Fixpoint intervals {Err Report} (evs : list (Poll.Event Err Report)) : list Z :=
  match evs with
  | [] => []
  | Poll.EvCall ms _ :: evs' => ms :: intervals evs'
  | _ :: evs' => intervals evs'
  end.

(** The requests of the attempts of a poll. *)
Fixpoint attempt_requests {Err Report} (evs : list (Poll.Event Err Report))
  : list AssetReportRequest :=
  match evs with
  | [] => []
  | Poll.EvAttempt req _ :: evs' => req :: attempt_requests evs'
  | _ :: evs' => attempt_requests evs'
  end.

Definition failed {A E} (res : Settled A E) : bool :=
  match res with
  | Resolves _ => false
  | Rejects _ => true
  end.

End Traces.

(** ** More providers to run the routes on *)

Module Playback.

(** A feed that never ends: the world counts the calls, every page adds
    one transaction and announces more. *)
Definition endless_page (n : nat) : SyncData :=
  mkSyncData [mkTransaction (pretty n) "2024-01-01" (Z.of_nat n)] [] []
    true (Some (pretty n)).

#[export] Instance endless : PlaidClient nat string Z := {|
  transactionsSync n req := (Resolves (endless_page n), S n);
  assetReportGet n req := (Rejects "not ready"%string, S n);
  findAccessToken n id := Some "access"%string
|}.

(** Scripts for the other clients. *)
Record Script : Type := mkScript {
  link_script : list (Settled string string);
  create_script : list (Settled string string);
  pdf_script : list (Settled string string);
  accounts_script : list (Settled (list Transfer.Account) string);
  authorization_script : list (Settled Transfer.Authorization string);
  transfer_script : list (Settled Transfer.TransferData string);
  report_script : list (Settled Z string)
}.

Definition over : string := "script exhausted".

Definition next_of {A} (l : list (Settled A string))
  : Settled A string * list (Settled A string) :=
  match l with
  | [] => (Rejects over, [])
  | r :: rs => (r, rs)
  end.

#[export] Instance reports : PlaidClient Script string Z := {|
  transactionsSync w req := (Rejects over, w);
  assetReportGet w req :=
    let (r, rs) := next_of (report_script w) in
    (r, mkScript (link_script w) (create_script w) (pdf_script w)
          (accounts_script w) (authorization_script w) (transfer_script w) rs);
  findAccessToken w id := None
|}.

#[export] Instance link : LinkToken.LinkClient Script string string := {|
  LinkToken.linkTokenCreate w configs :=
    let (r, rs) := next_of (link_script w) in
    (r, mkScript rs (create_script w) (pdf_script w)
          (accounts_script w) (authorization_script w) (transfer_script w)
          (report_script w))
|}.

#[export] Instance asset : Assets.AssetClient Script string string := {|
  Assets.assetReportCreate w configs :=
    let (r, rs) := next_of (create_script w) in
    (r, mkScript (link_script w) rs (pdf_script w)
          (accounts_script w) (authorization_script w) (transfer_script w)
          (report_script w));
  Assets.assetReportPdfGet w req :=
    let (r, rs) := next_of (pdf_script w) in
    (r, mkScript (link_script w) (create_script w) rs
          (accounts_script w) (authorization_script w) (transfer_script w)
          (report_script w))
|}.

#[export] Instance transfer : Transfer.TransferClient Script string := {|
  Transfer.accountsGet w token :=
    let (r, rs) := next_of (accounts_script w) in
    (r, mkScript (link_script w) (create_script w) (pdf_script w)
          rs (authorization_script w) (transfer_script w) (report_script w));
  Transfer.transferAuthorizationCreate w req :=
    let (r, rs) := next_of (authorization_script w) in
    (r, mkScript (link_script w) (create_script w) (pdf_script w)
          (accounts_script w) rs (transfer_script w) (report_script w));
  Transfer.transferCreate w req :=
    let (r, rs) := next_of (transfer_script w) in
    (r, mkScript (link_script w) (create_script w) (pdf_script w)
          (accounts_script w) (authorization_script w) rs (report_script w))
|}.

Definition nothing : Script := mkScript [] [] [] [] [] [] [].

(** A report that is ready on the third attempt, and its PDF. *)
Definition report_on_third : Script :=
  mkScript [] [Resolves "report-token"%string] [Resolves "%PDF"%string] [] [] []
    [Rejects "not ready"; Rejects "not ready"; Resolves 42]%string.

(** A report that is not ready within twenty attempts. *)
Definition report_never : Script :=
  mkScript [] [Resolves "report-token"%string] [Resolves "%PDF"%string] [] [] []
    (repeat (Rejects "not ready"%string) 20).

(** An item with two accounts, an authorization and a transfer. *)
Definition two_accounts : Script :=
  mkScript [] [] []
    [Resolves [Transfer.mkAccount "acc-1"; Transfer.mkAccount "acc-2"]]
    [Resolves (Transfer.mkAuthorization "auth-1")]
    [Resolves (Transfer.mkTransferData "transfer-1")] [].

(** The authorization is refused. *)
Definition refused : Script :=
  mkScript [] [] []
    [Resolves [Transfer.mkAccount "acc-1"]]
    [Rejects "refused"%string] [] [].

(** An item without accounts. *)
Definition no_accounts : Script :=
  mkScript [] [] [] [Resolves []] [] [] [].

(** A feed of ten added transactions on two pages, dates out of order,
    three of them on the same day. *)
Definition n6 : Transaction := mkTransaction "n6" "2024-03-06" 60.
Definition d2a : Transaction := mkTransaction "d2a" "2024-01-02" 21.
Definition n1 : Transaction := mkTransaction "n1" "2024-03-01" 10.
Definition d1 : Transaction := mkTransaction "d1" "2024-01-01" 11.
Definition d2b : Transaction := mkTransaction "d2b" "2024-01-02" 22.
Definition n5 : Transaction := mkTransaction "n5" "2024-03-05" 50.
Definition n2 : Transaction := mkTransaction "n2" "2024-03-02" 20.
Definition d2c : Transaction := mkTransaction "d2c" "2024-01-02" 23.
Definition n4 : Transaction := mkTransaction "n4" "2024-03-04" 40.
Definition n3 : Transaction := mkTransaction "n3" "2024-03-03" 30.

Definition busy_page1 : SyncData :=
  mkSyncData [n6; d2a; n1; d1; d2b] [] [] true (Some "b1"%string).
Definition busy_page2 : SyncData :=
  mkSyncData [n5; n2; d2c; n4; n3] [] [] false (Some "b2"%string).

Definition busy_feed : Scripted.World :=
  Scripted.mkWorld [Resolves busy_page1; Resolves busy_page2] []
    [(7, "access-7"%string)].

(** The loop variables once that feed is drained. *)
Definition busy_drained : Sync.Vars :=
  {| Sync.v_cursor := Some "b2"%string;
     Sync.v_added := [n6; d2a; n1; d1; d2b; n5; n2; d2c; n4; n3];
     Sync.v_modified := [];
     Sync.v_removed := [];
     Sync.v_hasMore := false |}.

(** What the errors of the scripted feed carry as [error.response]: a
    body that has a [status_code] field of its own, and the status. *)
Definition response_with_status (e : string)
  : option (Errors.ErrorResponse string) :=
  Some {| Errors.data :=
            Some (<["status_code"%string := "stale"%string]>
                    {[ "error_code"%string := e ]});
          Errors.status := e |}.

End Playback.

(** * Properties *)

(** ** The sync loop *)

Section SyncFacts.
Context {World Err Report : Type} `{!PlaidClient World Err Report}.
Implicit Types (vs : Sync.Vars) (ps : list SyncData) (w : World).

Lemma fold_merge_added ps vs :
  Sync.v_added (foldl Sync.merge vs ps) = Sync.v_added vs ++ concat (map added ps).
Proof.
  revert vs. induction ps as [|p ps IH]; intros vs; simpl.
  - by rewrite app_nil_r.
  - rewrite IH. simpl. by rewrite <- app_assoc.
Qed.

Lemma fold_merge_modified ps vs :
  Sync.v_modified (foldl Sync.merge vs ps)
  = Sync.v_modified vs ++ concat (map modified ps).
Proof.
  revert vs. induction ps as [|p ps IH]; intros vs; simpl.
  - by rewrite app_nil_r.
  - rewrite IH. simpl. by rewrite <- app_assoc.
Qed.

Lemma fold_merge_removed ps vs :
  Sync.v_removed (foldl Sync.merge vs ps)
  = Sync.v_removed vs ++ concat (map removed ps).
Proof.
  revert vs. induction ps as [|p ps IH]; intros vs; simpl.
  - by rewrite app_nil_r.
  - rewrite IH. simpl. by rewrite <- app_assoc.
Qed.

Lemma vars_eta vs :
  vs = {| Sync.v_cursor := Sync.v_cursor vs;
          Sync.v_added := Sync.v_added vs;
          Sync.v_modified := Sync.v_modified vs;
          Sync.v_removed := Sync.v_removed vs;
          Sync.v_hasMore := Sync.v_hasMore vs |}.
Proof. by destruct vs. Qed.

Lemma fold_merge_last ps p vs :
  foldl Sync.merge vs (ps ++ [p])
  = Sync.merge (foldl Sync.merge vs ps) p.
Proof. by rewrite foldl_app. Qed.

Lemma calls_length token c ps :
  length (Sync.calls (Err := Err) token c ps) = length ps.
Proof. revert c. induction ps as [|p ps IH]; intros c; simpl; auto. Qed.

Lemma pages_of_calls token c ps :
  Sync.pages_of (Sync.calls (Err := Err) token c ps) = ps.
Proof. revert c. induction ps as [|p ps IH]; intros c; simpl; f_equal; auto. Qed.

(** Every run of the loop function is a run of the relation. *)
Lemma loop_run fuel token w vs :
  Sync.Run token vs (Sync.loop fuel token w vs).1
    (Sync.fetches (Sync.loop fuel token w vs).2).
Proof.
  revert w vs. induction fuel as [|fuel IH]; intros w vs; simpl.
  - destruct (Sync.v_hasMore vs) eqn:Hm; simpl; by constructor.
  - destruct (Sync.v_hasMore vs) eqn:Hm; simpl; [|by constructor].
    destruct (transactionsSync w _) as [[data|e] w'] eqn:Hcall.
    + specialize (IH w' (Sync.merge vs data)).
      destruct (Sync.loop fuel token w' (Sync.merge vs data)) as [c evs].
      simpl in *. by constructor.
    + simpl. by constructor.
Qed.

(** Served pages that all announce more keep the loop going; the page
    that announces no more ends it. *)
Lemma loop_served ps : forall last fuel token w vs,
  Sync.v_hasMore vs = true ->
  Forall (fun p => has_more p = true) ps ->
  has_more last = false ->
  Provider.serves w token (Sync.v_cursor vs) (ps ++ [last]) ->
  (length ps < fuel)%nat ->
  (Sync.loop fuel token w vs).1
    = Returned (foldl Sync.merge vs (ps ++ [last])) /\
  Sync.fetches (Sync.loop fuel token w vs).2
    = Sync.calls token (Sync.v_cursor vs) (ps ++ [last]).
Proof.
  induction ps as [|p ps IH]; intros last fuel token w vs Hm Hps Hlast Hs Hf.
  - destruct fuel as [|fuel]; [simpl in Hf; lia|].
    simpl in Hs. destruct Hs as [Hcall _].
    simpl. rewrite Hm.
    destruct (transactionsSync w _) as [r w']. simpl in Hcall. subst r.
    destruct fuel; simpl; rewrite Hlast; simpl; auto.
  - destruct fuel as [|fuel]; [simpl in Hf; lia|].
    simpl in Hs. destruct Hs as [Hcall Hrest].
    apply Forall_cons in Hps as [Hp Hps].
    simpl. rewrite Hm.
    destruct (transactionsSync w _) as [r w']. simpl in Hcall, Hrest. subst r.
    destruct (IH last fuel token w' (Sync.merge vs p)) as [Hc Hfs]; auto.
    { simpl in Hf. lia. }
    destruct (Sync.loop fuel token w' (Sync.merge vs p)) as [c evs].
    simpl in *. subst c. by rewrite Hfs.
Qed.

Lemma run_first token vs c (fs : list (SyncRequest * Settled SyncData Err)) req res :
  Sync.Run token vs c fs ->
  fs !! 0%nat = Some (req, res) ->
  cursor req = Sync.v_cursor vs.
Proof.
  intros Hrun Hk. destruct Hrun; simpl in Hk; by simplify_eq.
Qed.

Lemma run_next token vs c (fs : list (SyncRequest * Settled SyncData Err)) :
  Sync.Run token vs c fs ->
  forall k req res req' res',
    fs !! k = Some (req, res) ->
    fs !! S k = Some (req', res') ->
    exists p, res = Resolves p /\ cursor req' = next_cursor p.
Proof.
  induction 1 as [vs Hm|vs p c fs Hm Hrun IH|vs e Hm|vs Hm];
    intros k req res req' res' Hk Hk'; simpl in *; try done.
  destruct k as [|k]; simpl in *.
  - simplify_eq. exists p. split; [done|].
    by rewrite (run_first _ _ _ _ _ _ Hrun Hk').
  - eauto.
Qed.

Lemma run_rejected token vs c (fs : list (SyncRequest * Settled SyncData Err)) :
  Sync.Run token vs c fs ->
  forall pre req e post,
    fs = pre ++ (req, Rejects e) :: post ->
    post = [] /\ c = Threw (ClientRejection e).
Proof.
  induction 1 as [vs Hm|vs p c fs Hm Hrun IH|vs e0 Hm|vs Hm];
    intros pre req e post Heq.
  - by destruct pre.
  - destruct pre as [|x pre]; simpl in Heq; simplify_eq. eauto.
  - destruct pre as [|x pre]; simpl in Heq; simplify_eq; [done|].
    by destruct pre.
  - by destruct pre.
Qed.

Lemma run_returned token vs vs' (fs : list (SyncRequest * Settled SyncData Err)) :
  Sync.Run token vs (Returned vs') fs ->
  fs = Sync.calls token (Sync.v_cursor vs) (Sync.pages_of fs) /\
  vs' = foldl Sync.merge vs (Sync.pages_of fs) /\
  Sync.v_hasMore vs' = false.
Proof.
  remember (Returned vs') as c eqn:Hc.
  induction 1 as [vs Hm|vs p c fs Hm Hrun IH|vs e0 Hm|vs Hm];
    simplify_eq; simpl; [done|].
  destruct (IH eq_refl) as (Hfs & Hvs & Hdone).
  split_and!; [|done..]. f_equal. exact Hfs.
Qed.

Lemma run_threw token vs t (fs : list (SyncRequest * Settled SyncData Err)) :
  Sync.Run token vs (Threw t) fs ->
  exists req e, t = ClientRejection e /\ last fs = Some (req, Rejects e).
Proof.
  remember (Threw t) as c eqn:Hc.
  induction 1 as [vs Hm|vs p c fs Hm Hrun IH|vs e0 Hm|vs Hm]; simplify_eq.
  - destruct (IH eq_refl) as (req & e & -> & Hlast).
    exists req, e. split; [done|]. by rewrite last_cons, Hlast.
  - by eexists _, _.
Qed.

(** With a turn of fuel left and [hasMore] set, the loop fetches. *)
Lemma loop_fetches_first fuel token w vs :
  Sync.v_hasMore vs = true ->
  is_Some (Sync.fetches (Sync.loop (S fuel) token w vs).2 !! 0%nat).
Proof.
  intros Hm. simpl. rewrite Hm.
  destruct (transactionsSync w _) as [[data|e] w']; [|by eexists].
  destruct (Sync.loop fuel token w' (Sync.merge vs data)). by eexists.
Qed.

(** A page that announces more is followed by the next fetch. *)
Lemma loop_goes_on fuel : forall token w vs k req p,
  Sync.fetches (Sync.loop fuel token w vs).2 !! k = Some (req, Resolves p) ->
  has_more p = true ->
  (S k < fuel)%nat ->
  is_Some (Sync.fetches (Sync.loop fuel token w vs).2 !! S k).
Proof.
  induction fuel as [|fuel IH]; intros token w vs k req p Hk Hp Hfuel; [lia|].
  simpl in Hk |- *. destruct (Sync.v_hasMore vs); [|done].
  destruct (transactionsSync w _) as [[data|e] w'].
  - pose proof (IH token w' (Sync.merge vs data)) as IH'.
    destruct fuel as [|fuel]; [lia|].
    pose proof (loop_fetches_first fuel token w' (Sync.merge vs data)) as H0.
    destruct (Sync.loop (S fuel) token w' (Sync.merge vs data)) as [c evs].
    simpl in *. destruct k as [|k]; simpl in *.
    + simplify_eq. by apply H0.
    + eapply IH'; eauto. lia.
  - simpl in *. destruct k; by simplify_eq.
Qed.

End SyncFacts.

(** ** Arrays: copy, sort in place, slice *)

Section ArrayFacts.
Import Arrays.
Implicit Types (l : list Transaction) (h : Heap) (a r : Ref).

Lemma compare_positive x y :
  (0 <? compareTxnsByDateAscending x y) = true <->
  String.ltb (date y) (date x) = true.
Proof.
  unfold compareTxnsByDateAscending, String.ltb.
  rewrite (String.compare_antisym (date x) (date y)).
  rewrite Z.ltb_lt.
  destruct (String.compare (date y) (date x)); simpl; split; (lia || done).
Qed.

Lemma not_after_le x y :
  (0 <? compareTxnsByDateAscending x y) = false -> date_le x y.
Proof.
  unfold compareTxnsByDateAscending, date_le, String.ltb, String.leb.
  rewrite (String.compare_antisym (date x) (date y)).
  rewrite Z.ltb_ge.
  destruct (String.compare (date y) (date x)); simpl; (lia || done).
Qed.

Lemma after_le x y :
  (0 <? compareTxnsByDateAscending x y) = true -> date_le y x.
Proof.
  rewrite compare_positive. unfold date_le, String.ltb, String.leb.
  by destruct (String.compare (date y) (date x)).
Qed.

Lemma insert_head x l y :
  date_le y x -> HdRel date_le y l ->
  HdRel date_le y (insert compareTxnsByDateAscending x l).
Proof.
  intros Hyx Hhd. destruct l as [|z l]; simpl.
  - by constructor.
  - destruct (0 <? _); constructor; [|done].
    by apply HdRel_inv in Hhd.
Qed.

Lemma insert_sorted x l :
  Sorted date_le l -> Sorted date_le (insert compareTxnsByDateAscending x l).
Proof.
  induction 1 as [|y l Hs IH Hhd]; simpl.
  - by repeat constructor.
  - destruct (0 <? compareTxnsByDateAscending x y) eqn:Hc.
    + constructor; [done|]. apply insert_head; [|done]. by apply after_le.
    + constructor; [by constructor|]. constructor. by apply not_after_le.
Qed.

Lemma sorted_by_sorted l :
  Sorted date_le (sorted_by compareTxnsByDateAscending l).
Proof.
  induction l as [|x l IH]; simpl; [constructor|]. by apply insert_sorted.
Qed.

Lemma insert_perm cmp x l : Permutation (insert cmp x l) (x :: l).
Proof.
  induction l as [|y l IH]; simpl; [done|].
  destruct (0 <? cmp x y); [|done].
  rewrite IH. apply perm_swap.
Qed.

Lemma sorted_by_perm cmp l : Permutation (sorted_by cmp l) l.
Proof.
  induction l as [|x l IH]; simpl; [done|].
  rewrite insert_perm. by constructor.
Qed.

Lemma before_differs x y :
  (0 <? compareTxnsByDateAscending x y) = true -> date y <> date x.
Proof.
  rewrite compare_positive. unfold String.ltb. intros Hlt Heq.
  rewrite Heq in Hlt.
  pose proof (String.compare_antisym (date x) (date x)) as Hanti.
  destruct (String.compare (date x) (date x)); simpl in *; congruence.
Qed.

(** The sort is stable: transactions of one date keep the order they had. *)
Lemma insert_stable d x l :
  filter (fun t => date t = d) (insert compareTxnsByDateAscending x l)
  = filter (fun t => date t = d) (x :: l).
Proof.
  induction l as [|y l IH]; simpl; [done|].
  destruct (0 <? compareTxnsByDateAscending x y) eqn:Hc; [|done].
  apply before_differs in Hc.
  rewrite !filter_cons in *.
  destruct (decide (date y = d)), (decide (date x = d)); simplify_eq;
    rewrite IH; done.
Qed.

Lemma sorted_by_stable d l :
  filter (fun t => date t = d) (sorted_by compareTxnsByDateAscending l)
  = filter (fun t => date t = d) l.
Proof.
  induction l as [|x l IH]; simpl; [done|].
  rewrite insert_stable, !filter_cons, IH. done.
Qed.

Lemma sorted_drop {A} (R : A -> A -> Prop) n (xs : list A) :
  Sorted R xs -> Sorted R (drop n xs).
Proof.
  revert xs. induction n as [|n IH]; intros xs Hs; [done|].
  destruct xs as [|x xs]; simpl; [done|]. apply IH. by inversion Hs.
Qed.

Lemma sliced_last8 l :
  sliced (-8) l = drop (length l - 8)%nat l.
Proof.
  unfold sliced. change (-8 <? 0) with true. cbv iota. f_equal. lia.
Qed.

Lemma sliced_length l : (length (sliced (-8) l) <= 8)%nat.
Proof. rewrite sliced_last8, length_drop. lia. Qed.

Lemma recent_sorted l : Sorted date_le (recent l).
Proof.
  unfold recent. rewrite sliced_last8. apply sorted_drop, sorted_by_sorted.
Qed.

Lemma recent_from l t : t ∈ recent l -> t ∈ l.
Proof.
  unfold recent. rewrite sliced_last8. intros Hin.
  apply (subseteq_drop _ _ _) in Hin.
  by rewrite sorted_by_perm in Hin.
Qed.

(** The heap after the three calls: the copy and the slice are new
    objects, and every object that was there is left as it was. *)
Lemma recently_added_heap h a l :
  h !! a = Some l ->
  exists r h',
    recently_added a h = (r, h') /\
    h' !! r = Some (recent l) /\
    h !! r = None /\
    (forall b, is_Some (h !! b) -> h' !! b = h !! b).
Proof.
  intros Ha.
  unfold recently_added, spread, sort, slice, bind, read, write, alloc, ret.
  simpl. rewrite Ha. simpl.
  set (r1 := fresh (dom h)).
  assert (Hr1 : h !! r1 = None).
  { apply not_elem_of_dom, is_fresh. }
  clearbody r1.
  repeat (rewrite lookup_insert_eq; simpl). rewrite insert_insert_eq.
  set (h2 := <[r1 := sorted_by compareTxnsByDateAscending l]> h).
  set (r2 := fresh (dom h2)).
  assert (Hr2 : h2 !! r2 = None).
  { apply not_elem_of_dom, is_fresh. }
  clearbody r2.
  assert (Hne : r1 <> r2).
  { intros ->. unfold h2 in Hr2. by rewrite lookup_insert_eq in Hr2. }
  eexists _, _. split; [reflexivity|]. split_and!.
  - by rewrite lookup_insert_eq.
  - unfold h2 in Hr2. by rewrite lookup_insert_ne in Hr2.
  - intros b [x Hb].
    assert (b <> r1) by (intros ->; congruence).
    assert (b <> r2).
    { intros ->. unfold h2 in Hr2. rewrite lookup_insert_ne in Hr2 by done.
      congruence. }
    unfold h2. by rewrite !lookup_insert_ne.
Qed.

End ArrayFacts.

(** ** The route *)

Section RouteFacts.
Context {World Err Report : Type} `{!PlaidClient World Err Report}.

Lemma calls_resolved token c ps req (res : Settled SyncData Err) :
  (req, res) ∈ Sync.calls token c ps -> exists p, res = Resolves p.
Proof.
  revert c. induction ps as [|p ps IH]; intros c; simpl.
  - by intros ?%elem_of_nil.
  - intros [?|?]%elem_of_cons; simplify_eq; eauto.
Qed.

(** A run from the initial variables that returns has fetched a last
    page, and that page announced no more. *)
Lemma returned_last_page token vs' (fs : list (SyncRequest * Settled SyncData Err)) :
  Sync.Run token Sync.init (Returned vs') fs ->
  exists p, last (Sync.pages_of fs) = Some p /\ has_more p = false.
Proof.
  intros (_ & Hvs & Hdone)%run_returned.
  destruct (Sync.pages_of fs) as [|p0 ps0] using rev_ind.
  - by subst vs'.
  - exists p0. rewrite last_snoc. split; [done|].
    rewrite fold_merge_last in Hvs. by subst vs'.
Qed.

(** The statements after the loop answer with the recent slice of a
    sorted copy and leave the array held by [added] as it was. *)
Lemma respond_spec vs (evs : list (Sync.Event Err)) :
  exists a h,
    Route.respond vs evs
      = Route.mkOutcome (Route.Json (Arrays.recent (Sync.v_added vs)))
          evs (Some a) h /\
    h !! a = Some (Sync.v_added vs).
Proof.
  unfold Route.respond, Arrays.alloc.
  set (a := fresh (dom (∅ : Arrays.Heap))).
  set (h0 := <[a := Sync.v_added vs]> (∅ : Arrays.Heap)).
  assert (Ha : h0 !! a = Some (Sync.v_added vs)) by apply lookup_insert_eq.
  destruct (recently_added_heap h0 a _ Ha) as (r & h' & Hrun & Hr & _ & Hframe).
  rewrite Hrun, Hr. simpl. exists a, h'. split; [done|].
  rewrite Hframe; [done|]. by rewrite Ha.
Qed.

(** The three ways the handler ends once a token is found. *)
Lemma transactions_cases fuel w id token :
  findAccessToken w id = Some token ->
  let out := Route.transactions fuel w id in
  Route.trace out = (Sync.sync fuel token w).2 /\
  match (Sync.sync fuel token w).1 with
  | Returned vs =>
      Route.response out = Route.Json (Arrays.recent (Sync.v_added vs)) /\
      exists a, Route.added_ref out = Some a /\
                Route.heap out !! a = Some (Sync.v_added vs)
  | Threw t =>
      Route.response out = Route.Next t /\ Route.added_ref out = None
  | OutOfFuel =>
      Route.response out = Route.Looping /\ Route.added_ref out = None
  end.
Proof.
  intros Htok. unfold Route.transactions. rewrite Htok.
  destruct (Sync.sync fuel token w) as [[vs|t|] evs]; [|simpl; auto..].
  destruct (respond_spec vs evs) as (a & h & -> & Ha). simpl. eauto.
Qed.

Lemma transactions_no_token fuel w id :
  findAccessToken w id = None ->
  Route.transactions fuel w id
  = Route.mkOutcome (Route.Next (JsError "No access token found")) [] None ∅.
Proof. intros Htok. unfold Route.transactions. by rewrite Htok. Qed.

(** C1.  For every sequence of N >= 1 pages of which the first N-1
    announce [has_more = true] and the last announces [has_more = false],
    served by the provider one per call, the sync loop (given fuel for N
    iterations) issues exactly N fetch calls, which resolve with these
    pages in order, and returns [added], [modified] and [removed] equal
    to the in-order concatenation of the pages' respective sequences:
    nothing is reordered and nothing is deduplicated. *)
Theorem sync_concatenates_pages ps last_page fuel token w :
  Forall (fun p => has_more p = true) ps ->
  has_more last_page = false ->
  Provider.serves w token None (ps ++ [last_page]) ->
  (length ps < fuel)%nat ->
  let pages := ps ++ [last_page] in
  let run := Sync.sync fuel token w in
  length (Sync.fetches run.2) = length pages /\
  Sync.pages_of (Sync.fetches run.2) = pages /\
  run.1 = Returned
            {| Sync.v_cursor := next_cursor last_page;
               Sync.v_added := concat (map added pages);
               Sync.v_modified := concat (map modified pages);
               Sync.v_removed := concat (map removed pages);
               Sync.v_hasMore := false |}.
Proof.
  intros Hps Hlast Hserves Hfuel pages run.
  destruct (loop_served ps last_page fuel token w Sync.init)
    as [Hc Hfs]; auto.
  subst run. unfold Sync.sync. rewrite Hc, Hfs.
  rewrite calls_length, pages_of_calls. split_and!; [done..|].
  f_equal. fold pages. rewrite (vars_eta (foldl Sync.merge Sync.init pages)).
  rewrite fold_merge_added, fold_merge_modified, fold_merge_removed.
  subst pages. rewrite fold_merge_last. simpl. by rewrite Hlast.
Qed.

(** C2.  In every run of the sync loop the first fetch call is made with
    the start cursor [null], and the cursor passed to fetch call k+1 is
    exactly the [next_cursor] of the page that fetch call k resolved
    with: the cursor is only ever replaced by that field. *)
Theorem cursor_follows_next_cursor fuel token w :
  let fs := Sync.fetches (Sync.sync fuel token w).2 in
  (forall req res, fs !! 0%nat = Some (req, res) -> cursor req = None) /\
  (forall k req res req' res',
      fs !! k = Some (req, res) ->
      fs !! S k = Some (req', res') ->
      exists p, res = Resolves p /\ cursor req' = next_cursor p).
Proof.
  intros fs. pose proof (loop_run fuel token w Sync.init) as Hrun.
  split.
  - intros req res H0. by apply (run_first _ _ _ _ _ _ Hrun H0).
  - apply (run_next _ _ _ _ Hrun).
Qed.

(** C3.  If a fetch call fails, it is the last fetch call of the run and
    the handler passes that very failure to [next]: no response body is
    built and no accumulated array is left.  Conversely, when the handler
    answers with transactions, every fetch call resolved, the last page
    announced [has_more = false], and the answer is computed from the
    [added] sequences of all the pages: the caller gets a fully drained
    result or an error, never a partial result. *)
Theorem failed_fetch_aborts_sync fuel w id :
  let out := Route.transactions fuel w id in
  let fs := Sync.fetches (Route.trace out) in
  (forall pre req e post,
      fs = pre ++ (req, Rejects e) :: post ->
      post = [] /\
      Route.response out = Route.Next (ClientRejection e) /\
      Route.added_ref out = None) /\
  (forall l,
      Route.response out = Route.Json l ->
      (forall req res, (req, res) ∈ fs -> exists p, res = Resolves p) /\
      (exists p, last (Sync.pages_of fs) = Some p /\ has_more p = false) /\
      l = Arrays.recent (concat (map added (Sync.pages_of fs)))).
Proof.
  intros out fs.
  destruct (findAccessToken w id) as [token|] eqn:Htok.
  - destruct (transactions_cases fuel w id token Htok) as [Htr Hcase].
    pose proof (loop_run fuel token w Sync.init) as Hrun.
    fold (Sync.sync fuel token w) in Hrun.
    subst fs out. rewrite Htr.
    destruct (Sync.sync fuel token w) as [c evs]. simpl in *. split.
    + intros pre req e post Heq.
      destruct (run_rejected _ _ _ _ Hrun _ _ _ _ Heq) as [-> ->].
      by destruct Hcase.
    + intros l Hl. destruct c as [vs| |]; destruct Hcase as [Hresp Hrest];
        rewrite Hresp in Hl; try discriminate.
      injection Hl as <-.
      destruct (run_returned _ _ _ _ Hrun) as (Hfs & Hvs & _).
      split_and!.
      * intros req res Hin. rewrite Hfs in Hin. by eapply calls_resolved.
      * by eapply returned_last_page.
      * rewrite Hvs, fold_merge_added. done.
  - subst fs out. rewrite (transactions_no_token _ _ _ Htok). simpl. split.
    + intros pre ? ? ? Heq. by destruct pre.
    + intros l Hl. discriminate.
Qed.

(** When the loop drains, the handler answers, with the recent slice of
    all that the pages added, and the array held by [added] is untouched. *)
Lemma drained_is_answered fuel w id token vs :
  findAccessToken w id = Some token ->
  (Sync.sync fuel token w).1 = Returned vs ->
  let out := Route.transactions fuel w id in
  Route.response out = Route.Json (Arrays.recent (Sync.v_added vs)) /\
  Sync.v_added vs
  = concat (map added (Sync.pages_of (Sync.fetches (Route.trace out)))) /\
  exists a, Route.added_ref out = Some a /\
            Route.heap out !! a = Some (Sync.v_added vs).
Proof.
  intros Htok Hret out.
  destruct (transactions_cases fuel w id token Htok) as [Htr Hcase].
  pose proof (loop_run fuel token w Sync.init) as Hrun.
  fold (Sync.sync fuel token w) in Hrun.
  subst out. rewrite Htr. rewrite Hret in Hcase, Hrun.
  destruct Hcase as [Hresp Href]. split_and!; [done| |done].
  destruct (run_returned _ _ _ _ Hrun) as (_ & Hvs & _).
  by rewrite Hvs, fold_merge_added.
Qed.

(** C10.  Once the sync loop has drained the feed, the handler answers,
    and the body holds at most 8 transactions: the last 8 elements of a
    copy of the accumulated [added] sequence sorted by date ascending.
    The array held by [added] still has the accumulated sequence, in
    fetch order; only transactions of [added] appear in the body,
    [modified] and [removed] play no part in it. *)
Theorem latest_transactions_recent_added fuel w id token vs :
  findAccessToken w id = Some token ->
  (Sync.sync fuel token w).1 = Returned vs ->
  let out := Route.transactions fuel w id in
  let accumulated :=
    concat (map added (Sync.pages_of (Sync.fetches (Route.trace out)))) in
  let copy := Arrays.sorted_by Arrays.compareTxnsByDateAscending accumulated in
  let l := drop (length copy - 8)%nat copy in
  Route.response out = Route.Json l /\
  Sync.v_added vs = accumulated /\
  Permutation copy accumulated /\
  Sorted Arrays.date_le copy /\
  Sorted Arrays.date_le l /\
  (length l <= 8)%nat /\
  (forall t, t ∈ l -> t ∈ accumulated) /\
  exists a, Route.added_ref out = Some a /\
            Route.heap out !! a = Some accumulated.
Proof.
  intros Htok Hret out accumulated copy l.
  destruct (drained_is_answered fuel w id token vs Htok Hret)
    as (Hresp & Hacc & Href).
  fold out accumulated in Hresp, Hacc, Href.
  assert (Hl : l = Arrays.recent accumulated).
  { subst l copy. symmetry. apply sliced_last8. }
  rewrite Hacc in Hresp, Href. rewrite Hl. split_and!.
  - exact Hresp.
  - exact Hacc.
  - apply sorted_by_perm.
  - apply sorted_by_sorted.
  - apply recent_sorted.
  - apply sliced_length.
  - apply recent_from.
  - exact Href.
Qed.

End RouteFacts.

(** ** Polling *)

Section PollFacts.
Context {World Err Report : Type} `{!PlaidClient World Err Report}.
Import Poll.
Implicit Types (w : World) (errs : list Err).

(** One more failing attempt in front of a poll that does not start at
    its last retry. *)
Lemma poll_retry fuel w w' token ms n e :
  assetReportGet w {| asset_report_token := token |} = (Rejects e, w') ->
  n <> 1 ->
  getAssetReportWithRetries (S fuel) w token ms n
  = (then_resolve (getAssetReportWithRetries fuel w' token ms (n - 1)).1,
     EvCall ms n :: EvAttempt {| asset_report_token := token |} (Rejects e)
       :: EvTimeout ms :: (getAssetReportWithRetries fuel w' token ms (n - 1)).2).
Proof.
  intros Hcall Hn. simpl. rewrite Hcall.
  destruct (Z.eqb_spec n 1) as [|_]; [done|].
  by destruct (getAssetReportWithRetries fuel w' token ms (n - 1)).
Qed.

(** Failures on all but the last attempt. *)
Lemma poll_succeeds errs : forall v fuel w token ms,
  Provider.answers w token (map Rejects errs ++ [Resolves v]) ->
  (length errs < fuel)%nat ->
  let run := getAssetReportWithRetries fuel w token ms (Z.of_nat (S (length errs))) in
  run.1 = Some (Fulfilled v) /\
  attempts run.2 = map Rejects errs ++ [Resolves v] /\
  delays run.2 = repeat ms (length errs) /\
  rejections run.2 = [] /\
  exists pre, run.2 = pre ++ [EvAttempt {| asset_report_token := token |} (Resolves v)].
Proof.
  induction errs as [|e errs IH]; intros v fuel w token ms Hans Hfuel;
    (destruct fuel as [|fuel]; [simpl in Hfuel; lia|]);
    simpl in Hans; destruct Hans as [Hcall Hrest];
    destruct (assetReportGet w {| asset_report_token := token |}) as [r w'] eqn:Hget;
    simpl in Hcall, Hrest; subst r.
  - simpl. rewrite Hget. simpl. split_and!; try done.
    by exists [EvCall ms 1].
  - intros run. subst run.
    rewrite (poll_retry _ _ _ _ _ _ _ Hget) by (simpl length; lia).
    replace (Z.of_nat (S (length (e :: errs))) - 1)
      with (Z.of_nat (S (length errs))) by (simpl length; lia).
    destruct (IH v fuel w' token ms Hrest) as (Hres & Hatt & Hdel & Hrej & pre & Hev).
    { simpl in Hfuel. lia. }
    simpl. rewrite Hres, Hatt, Hdel, Hrej. split_and!; try done.
    rewrite Hev. by eexists (_ :: _ :: _ :: pre).
Qed.

(** Failures on every attempt of the budget. *)
Lemma poll_all_fail errs : forall fuel w token ms,
  errs <> [] ->
  Provider.answers w token (map Rejects errs) ->
  (length errs <= fuel)%nat ->
  let run := getAssetReportWithRetries fuel w token ms (Z.of_nat (length errs)) in
  run.1 = Some (if decide (length errs = 1%nat)
                then Rejected out_of_retries else Pending) /\
  attempts run.2 = map Rejects errs /\
  delays run.2 = repeat ms (length errs) /\
  rejections run.2 = [out_of_retries] /\
  exists pre e,
    run.2 = pre ++ [EvAttempt {| asset_report_token := token |} (Rejects e);
                    EvTimeout ms; EvReject out_of_retries].
Proof.
  induction errs as [|e errs IH]; intros fuel w token ms Hne Hans Hfuel;
    [done|].
  destruct fuel as [|fuel]; [simpl in Hfuel; lia|].
  simpl in Hans. destruct Hans as [Hcall Hrest].
  destruct (assetReportGet w {| asset_report_token := token |}) as [r w'] eqn:Hget.
  simpl in Hcall, Hrest. subst r.
  destruct errs as [|e' errs'].
  - simpl. rewrite Hget. simpl. split_and!; try done.
    by exists [EvCall ms 1], e.
  - intros run. subst run.
    rewrite (poll_retry _ _ _ _ _ _ _ Hget) by (simpl length; lia).
    replace (Z.of_nat (length (e :: e' :: errs')) - 1)
      with (Z.of_nat (length (e' :: errs'))) by (simpl length; lia).
    destruct (IH fuel w' token ms) as (Hres & Hatt & Hdel & Hrej & pre & e1 & Hev);
      [done|done|simpl in *; lia|].
    cbn [fst snd]. rewrite Hres.
    split_and!.
    + by destruct (decide (length (e' :: errs') = 1%nat)).
    + cbn [attempts]. by rewrite Hatt.
    + cbn [delays]. by rewrite Hdel.
    + cbn [rejections]. by rewrite Hrej.
    + rewrite Hev. by eexists (_ :: _ :: _ :: pre), e1.
Qed.

(** The counters of the invocations count down from the initial one and
    stay positive. *)
Lemma poll_budgets fuel : forall w token ms n,
  1 <= n ->
  let run := getAssetReportWithRetries fuel w token ms n in
  (forall k b, budgets run.2 !! k = Some b -> b = n - Z.of_nat k /\ 1 <= b) /\
  length (budgets run.2) = length (attempts run.2).
Proof.
  induction fuel as [|fuel IH]; intros w token ms n Hn; [by simpl|].
  destruct (assetReportGet w {| asset_report_token := token |}) as [[v|e] w'] eqn:Hget.
  - simpl. rewrite Hget. simpl. split; [|done].
    intros [|k] b Hk; simpl in Hk; [|done]. simplify_eq. lia.
  - destruct (Z.eqb_spec n 1) as [->|Hn1].
    + simpl. rewrite Hget. simpl. split; [|done].
      intros [|k] b Hk; simpl in Hk; [|done]. simplify_eq. lia.
    + intros run. subst run. rewrite (poll_retry _ _ _ _ _ _ _ Hget Hn1).
      destruct (IH w' token ms (n - 1)) as [Hk Hlen]; [lia|].
      cbn [fst snd budgets attempts length]. split; [|by rewrite Hlen].
      intros [|k] b Hb; simpl in Hb.
      * simplify_eq. lia.
      * destruct (Hk k b Hb). lia.
Qed.

(** A poll is only ever rejected by an invocation that starts at its last
    retry, and only with the fixed message. *)
Lemma poll_rejected fuel w token ms n reason :
  (getAssetReportWithRetries fuel w token ms n).1 = Some (Rejected reason) ->
  n = 1 /\ reason = out_of_retries.
Proof.
  destruct fuel as [|fuel]; simpl; [done|].
  destruct (assetReportGet w {| asset_report_token := token |}) as [[v|e] w']; [done|].
  destruct (Z.eqb_spec n 1) as [->|Hn1].
  - simpl. intros. by simplify_eq.
  - destruct (getAssetReportWithRetries fuel w' token ms (n - 1)) as [[[]|] evs];
      simpl; done.
Qed.

Lemma poll_rejections fuel : forall w token ms n,
  Forall (fun r => r = out_of_retries) (rejections (getAssetReportWithRetries fuel w token ms n).2).
Proof.
  induction fuel as [|fuel IH]; intros w token ms n; simpl; [constructor|].
  destruct (assetReportGet w {| asset_report_token := token |}) as [[v|e] w']; [constructor|].
  destruct (n =? 1); simpl; [by repeat constructor|].
  specialize (IH w' token ms (n - 1)).
  by destruct (getAssetReportWithRetries fuel w' token ms (n - 1)).
Qed.

Lemma poll_first_budget fuel w token ms n :
  budgets (getAssetReportWithRetries (S fuel) w token ms n).2 !! 0%nat = Some n.
Proof.
  simpl. destruct (assetReportGet w {| asset_report_token := token |}) as [[v|e] w']; [done|].
  destruct (n =? 1); [done|].
  by destruct (getAssetReportWithRetries fuel w' token ms (n - 1)).
Qed.

(** A failed attempt of an invocation that is not at its last retry is
    followed by an invocation with the counter one lower. *)
Lemma poll_decrements fuel : forall w token ms n k e b,
  let run := getAssetReportWithRetries fuel w token ms n in
  attempts run.2 !! k = Some (Rejects e) ->
  budgets run.2 !! k = Some b ->
  b <> 1 ->
  (S k < fuel)%nat ->
  budgets run.2 !! S k = Some (b - 1).
Proof.
  induction fuel as [|fuel IH]; intros w token ms n k e b run Ha Hb Hne Hk;
    [lia|].
  subst run.
  destruct (assetReportGet w {| asset_report_token := token |}) as [[v|e0] w'] eqn:Hget.
  - simpl in Ha. rewrite Hget in Ha. by destruct k.
  - destruct (Z.eqb_spec n 1) as [->|Hn1].
    + simpl in Ha, Hb. rewrite Hget in Ha, Hb. simpl in Ha, Hb.
      destruct k as [|k]; simpl in Hb; [by simplify_eq|done].
    + rewrite (poll_retry _ _ _ _ _ _ _ Hget Hn1) in Ha, Hb |- *.
      cbn [snd attempts budgets] in Ha, Hb |- *.
      destruct k as [|k]; simpl in Ha, Hb |- *.
      * simplify_eq. destruct fuel as [|fuel]; [lia|].
        apply poll_first_budget.
      * eapply IH; eauto. lia.
Qed.

(** Every invocation makes one attempt. *)
Lemma poll_shape_lengths fuel : forall w token ms n,
  length (budgets (getAssetReportWithRetries fuel w token ms n).2)
  = length (attempts (getAssetReportWithRetries fuel w token ms n).2).
Proof.
  induction fuel as [|fuel IH]; intros w token ms n; [done|]. simpl.
  destruct (assetReportGet w {| asset_report_token := token |}) as [[v|e] w'];
    [done|].
  destruct (n =? 1); [done|].
  specialize (IH w' token ms (n - 1)).
  destruct (getAssetReportWithRetries fuel w' token ms (n - 1)) as [r evs].
  simpl in *. by rewrite IH.
Qed.

(** The k-th attempt, when it fails, is followed by the k-th delay. *)
Lemma poll_failed_attempt_waits fuel : forall w token ms n k e,
  attempts (getAssetReportWithRetries fuel w token ms n).2 !! k
  = Some (Rejects e) ->
  delays (getAssetReportWithRetries fuel w token ms n).2 !! k = Some ms.
Proof.
  induction fuel as [|fuel IH]; intros w token ms n k e Hk; [done|].
  simpl in Hk |- *.
  destruct (assetReportGet w {| asset_report_token := token |}) as [[v|e0] w'].
  - destruct k; by simplify_eq.
  - destruct (n =? 1).
    + destruct k as [|k]; simpl in *; [done|by destruct k].
    + specialize (IH w' token ms (n - 1)).
      destruct (getAssetReportWithRetries fuel w' token ms (n - 1)) as [r evs].
      simpl in *. destruct k as [|k]; simpl in *; [done|]. by eapply IH.
Qed.

(** A fulfilled poll is fulfilled with the value of its last attempt. *)
Lemma poll_fulfilled_last fuel : forall w token ms n v,
  (getAssetReportWithRetries fuel w token ms n).1 = Some (Fulfilled v) ->
  last (attempts (getAssetReportWithRetries fuel w token ms n).2)
  = Some (Resolves v).
Proof.
  induction fuel as [|fuel IH]; intros w token ms n v Hv; [done|].
  simpl in Hv |- *.
  destruct (assetReportGet w {| asset_report_token := token |}) as [[v0|e0] w'].
  - simpl in *. by simplify_eq.
  - destruct (n =? 1); [done|].
    specialize (IH w' token ms (n - 1) v).
    destruct (getAssetReportWithRetries fuel w' token ms (n - 1)) as [r evs].
    simpl in *. destruct r as [[|v'|reason]|]; simpl in Hv; try done.
    rewrite last_cons, IH; [done|]. congruence.
Qed.

End PollFacts.

Section PollClaims.
Context {World Err Report : Type} `{!PlaidClient World Err Report}.
Import Poll.
Implicit Types (w : World) (errs : list Err).

(** C4.  With a budget of M >= 1 attempts, when the attempts 1..M-1 fail
    and attempt M succeeds, the promise is fulfilled with the value of
    attempt M, the successful attempt is the last thing the poll does
    (M attempts in all, none after the success), and exactly M-1 delays
    occur, each of length [ms]. *)
Theorem poll_returns_first_success errs v fuel w token ms :
  Provider.answers w token (map Rejects errs ++ [Resolves v]) ->
  (length errs < fuel)%nat ->
  let M := S (length errs) in
  let run := getAssetReportWithRetries fuel w token ms (Z.of_nat M) in
  run.1 = Some (Fulfilled v) /\
  attempts run.2 = map Rejects errs ++ [Resolves v] /\
  length (attempts run.2) = M /\
  delays run.2 = repeat ms (M - 1) /\
  exists pre,
    run.2 = pre ++ [EvAttempt {| asset_report_token := token |} (Resolves v)].
Proof.
  intros Hans Hfuel M run.
  destruct (poll_succeeds errs v fuel w token ms Hans Hfuel)
    as (Hres & Hatt & Hdel & _ & Hlast).
  subst run M. split_and!; try done.
  - rewrite Hatt, length_app, length_map. simpl. lia.
  - rewrite Hdel. f_equal. lia.
Qed.

(** C5, amended.  With a budget of M >= 1 attempts that all fail, exactly
    M attempts are made and exactly M delays of length [ms] occur: the
    timer runs after every failed attempt, the final one included, and
    the exhaustion rejection is raised in its callback, after that last
    delay.  With M = 1 the promise handed to the caller is rejected with
    the exhaustion message, one delay after the only attempt. *)
Theorem exhausted_poll_delays_every_attempt errs fuel w token ms :
  errs <> [] ->
  Provider.answers w token (map Rejects errs) ->
  (length errs <= fuel)%nat ->
  let M := length errs in
  let run := getAssetReportWithRetries fuel w token ms (Z.of_nat M) in
  attempts run.2 = map Rejects errs /\
  length (attempts run.2) = M /\
  delays run.2 = repeat ms M /\
  (exists pre e,
      run.2 = pre ++ [EvAttempt {| asset_report_token := token |} (Rejects e);
                      EvTimeout ms; EvReject out_of_retries]) /\
  (M = 1%nat -> run.1 = Some (Rejected out_of_retries)).
Proof.
  intros Hne Hans Hfuel M run.
  destruct (poll_all_fail errs fuel w token ms Hne Hans Hfuel)
    as (Hres & Hatt & Hdel & _ & Hlast).
  subst run M. split_and!; try done.
  - by rewrite Hatt, length_map.
  - intros H1. rewrite Hres. by destruct (decide _).
Qed.

(** C6, amended.  When every attempt of the budget fails, [reject] is
    called exactly once, with the fixed message
    ["Ran out of retries while polling for asset report"]: the same
    string whatever the attempts failed with and however many attempts
    were made.  The errors of the attempts are dropped, and the message
    carries no count. *)
Theorem exhaustion_is_fixed_message errs fuel w token ms :
  errs <> [] ->
  Provider.answers w token (map Rejects errs) ->
  (length errs <= fuel)%nat ->
  let run := getAssetReportWithRetries fuel w token ms (Z.of_nat (length errs)) in
  rejections run.2
    = ["Ran out of retries while polling for asset report"%string] /\
  (forall reason,
      run.1 = Some (Rejected reason) ->
      reason = "Ran out of retries while polling for asset report"%string).
Proof.
  intros Hne Hans Hfuel run.
  destruct (poll_all_fail errs fuel w token ms Hne Hans Hfuel)
    as (_ & _ & _ & Hrej & _).
  split; [done|]. intros reason Hr.
  by destruct (poll_rejected _ _ _ _ _ _ Hr).
Qed.


(** C9.  With an initial budget of at least 2 and every attempt failing,
    the innermost invocation calls [reject] with the exhaustion message,
    but the enclosing invocations consume the recursive call with
    [.then(resolve)] only, so the promise handed to the caller stays
    pending, whatever further time is allowed.  In any poll the caller's
    promise is rejected only if the initial budget is exactly 1. *)
Theorem exhaustion_not_forwarded errs fuel w token ms :
  (2 <= length errs)%nat ->
  Provider.answers w token (map Rejects errs) ->
  (length errs <= fuel)%nat ->
  let run := getAssetReportWithRetries fuel w token ms (Z.of_nat (length errs)) in
  run.1 = Some Pending /\
  rejections run.2 = [out_of_retries] /\
  (forall fuel' w' ms' n reason,
      (getAssetReportWithRetries fuel' w' token ms' n).1 = Some (Rejected reason) -> n = 1).
Proof.
  intros Hlen Hans Hfuel run.
  destruct (poll_all_fail errs fuel w token ms) as (Hres & _ & _ & Hrej & _);
    [intros ->; simpl in Hlen; lia|done..|].
  subst run. split_and!; [|done|].
  - rewrite Hres. destruct (decide _); [lia|done].
  - intros fuel' w' ms' n reason Hr.
    by destruct (poll_rejected _ _ _ _ _ _ Hr).
Qed.

(** C8, amended.  No cancellation signal is observed at a suspension
    point of either component.  Whatever the caller signals while a delay
    is in flight, a failed attempt made with more than one retry left is
    followed by its delay of [ms] and by the next attempt; a poll that is
    fulfilled delivers the value of its last attempt, and a poll is never
    rejected with anything but the exhaustion message.  Likewise, whatever
    is signalled while a fetch is awaited, a page that reports
    [has_more = true] is followed by the next fetch, and when the handler
    fails after it has fetched, what it passes on is the failure of its
    last fetch.  There is no cancellation error. *)
Theorem cancellation_signal_unobserved (signal : Cancellation.Signal)
  fuel w token ms n id :
  let polled :=
    Cancellation.getAssetReportWithRetries_signalled signal fuel w token ms n in
  let handled := Cancellation.transactions_signalled signal fuel w id in
  let fs := Sync.fetches (Route.trace handled) in
  (forall k e b,
      attempts polled.2 !! k = Some (Rejects e) ->
      budgets polled.2 !! k = Some b ->
      b <> 1 -> (S k < fuel)%nat ->
      delays polled.2 !! k = Some ms /\
      is_Some (attempts polled.2 !! S k)) /\
  (forall v,
      polled.1 = Some (Fulfilled v) ->
      last (attempts polled.2) = Some (Resolves v)) /\
  (forall reason,
      polled.1 = Some (Rejected reason) -> reason = out_of_retries) /\
  (forall k req p,
      fs !! k = Some (req, Resolves p) ->
      has_more p = true -> (S k < fuel)%nat ->
      is_Some (fs !! S k)) /\
  (forall t,
      Route.response handled = Route.Next t -> fs <> [] ->
      exists req e,
        t = ClientRejection e /\ last fs = Some (req, Rejects e)).
Proof.
  intros polled handled fs.
  subst polled handled fs.
  unfold Cancellation.getAssetReportWithRetries_signalled,
    Cancellation.transactions_signalled.
  split_and!.
  - intros k e b Hk Hb Hne Hfuel. split.
    + by eapply poll_failed_attempt_waits.
    + pose proof (poll_decrements fuel w token ms n k e b Hk Hb Hne Hfuel) as Hnext.
      apply lookup_lt_is_Some.
      apply lookup_lt_Some in Hnext.
      by rewrite <- (poll_shape_lengths fuel w token ms n).
  - intros v. apply poll_fulfilled_last.
  - intros reason Hr. by destruct (poll_rejected _ _ _ _ _ _ Hr).
  - intros k req p Hk Hp Hfuel.
    destruct (findAccessToken w id) as [tok|] eqn:Htok.
    + destruct (transactions_cases fuel w id tok Htok) as [Htr _].
      rewrite Htr in Hk |- *. by eapply loop_goes_on.
    + by rewrite (transactions_no_token _ _ _ Htok) in Hk.
  - intros t Ht Hfs.
    destruct (findAccessToken w id) as [tok|] eqn:Htok.
    + destruct (transactions_cases fuel w id tok Htok) as [Htr Hcase].
      pose proof (loop_run fuel tok w Sync.init) as Hrun.
      fold (Sync.sync fuel tok w) in Hrun. rewrite Htr.
      destruct (Sync.sync fuel tok w) as [c evs]. simpl in *.
      destruct c as [vs|t'|]; destruct Hcase as [Hresp _];
        rewrite Hresp in Ht; try discriminate.
      injection Ht as <-. by apply run_threw in Hrun.
    + by rewrite (transactions_no_token _ _ _ Htok) in Hfs.
Qed.

End PollClaims.

(** * The routes on the scripted provider *)

Section Scenarios.
Import Scripted.

(** The three-page scenario: the cursor goes [null], ["c1"], ["c2"] and
    the loop ends holding ["c3"]. *)
Example three_pages_sync :
  (Sync.sync 5 "access-7" three_pages).1
  = Returned {| Sync.v_cursor := Some "c3";
                Sync.v_added := [txA; txB];
                Sync.v_modified := [txA];
                Sync.v_removed := [mkRemoved "B"];
                Sync.v_hasMore := false |} /\
  map (fun fr => cursor fr.1) (Sync.fetches (Sync.sync 5 "access-7" three_pages).2)
  = [None; Some "c1"; Some "c2"].
Proof. split; reflexivity. Qed.

(** Three attempts, the third one ready: 42 after two delays of a second. *)
Example ready_on_third_poll :
  (Poll.getAssetReportWithRetries 5 ready_on_third "tok" 1000 3).1
  = Some (Poll.Fulfilled 42) /\
  Poll.delays (Poll.getAssetReportWithRetries 5 ready_on_third "tok" 1000 3).2
  = [1000; 1000].
Proof. split; reflexivity. Qed.

(** [sort] works on the array it is called on: without the copy the
    array held by [added] would be reordered. *)
Example sort_mutates_its_receiver :
  (Arrays.sort Arrays.compareTxnsByDateAscending 0%nat
     {[ 0%nat := [txA; txB] ]}).2 !! 0%nat
  = Some [txB; txA].
Proof. reflexivity. Qed.

Lemma sync_concatenates_pages_witness :
  Forall (fun p => has_more p = true) [page1; page2] /\
  has_more page3 = false /\
  Provider.serves three_pages "access-7" None ([page1; page2] ++ [page3]) /\
  (length [page1; page2] < 5)%nat /\
  length (Sync.fetches (Sync.sync 5 "access-7" three_pages).2) = 3%nat /\
  Sync.pages_of (Sync.fetches (Sync.sync 5 "access-7" three_pages).2)
  = [page1; page2; page3] /\
  (Sync.sync 5 "access-7" three_pages).1
  = Returned {| Sync.v_cursor := Some "c3";
                Sync.v_added := [txA; txB];
                Sync.v_modified := [txA];
                Sync.v_removed := [mkRemoved "B"];
                Sync.v_hasMore := false |}.
Proof.
  assert (H1 : Forall (fun p => has_more p = true) [page1; page2])
    by (repeat constructor).
  assert (H2 : has_more page3 = false) by reflexivity.
  assert (H3 : Provider.serves three_pages "access-7" None
                 ([page1; page2] ++ [page3]))
    by (simpl; repeat split).
  assert (H4 : (length [page1; page2] < 5)%nat) by (simpl; lia).
  repeat (split; [assumption|]).
  exact (sync_concatenates_pages [page1; page2] page3 5 "access-7"
           three_pages H1 H2 H3 H4).
Defined.

Lemma cursor_follows_next_cursor_witness :
  exists p, Resolves (E := string) page1 = Resolves p /\
            Some "c1"%string = next_cursor p.
Proof.
  exact (proj2 (cursor_follows_next_cursor 5 "access-7" three_pages)
           0%nat
           {| access_token := "access-7"; cursor := None |} (Resolves page1)
           {| access_token := "access-7"; cursor := Some "c1"%string |}
           (Resolves page2) eq_refl eq_refl).
Defined.

Lemma failed_fetch_aborts_sync_witness :
  Route.response (Route.transactions 5 broken_feed 7)
  = Route.Next (ClientRejection "503"%string) /\
  length (Sync.fetches (Route.trace (Route.transactions 5 broken_feed 7)))
  = 2%nat.
Proof.
  split; [|reflexivity].
  exact (proj1 (proj2 (proj1 (failed_fetch_aborts_sync 5 broken_feed 7)
           [({| access_token := "access-7"; cursor := None |}, Resolves page1)]
           {| access_token := "access-7"; cursor := Some "c1"%string |}
           "503"%string [] eq_refl))).
Defined.

Lemma latest_transactions_recent_added_witness :
  findAccessToken Playback.busy_feed 7 = Some "access-7"%string /\
  (Sync.sync 5 "access-7" Playback.busy_feed).1
  = Returned (Err := string) Playback.busy_drained /\
  Route.response (Route.transactions 5 Playback.busy_feed 7)
  = Route.Json (Err := string)
      [Playback.d2b; Playback.d2c; Playback.n1; Playback.n2;
       Playback.n3; Playback.n4; Playback.n5; Playback.n6] /\
  (length [Playback.d2b; Playback.d2c; Playback.n1; Playback.n2;
           Playback.n3; Playback.n4; Playback.n5; Playback.n6] <= 8)%nat.
Proof.
  assert (H1 : findAccessToken Playback.busy_feed 7 = Some "access-7"%string)
    by reflexivity.
  assert (H2 : (Sync.sync 5 "access-7" Playback.busy_feed).1
               = Returned (Err := string) Playback.busy_drained)
    by reflexivity.
  split; [exact H1|]. split; [exact H2|].
  destruct (latest_transactions_recent_added 5 Playback.busy_feed 7
              "access-7" Playback.busy_drained H1 H2)
    as (Hresp & _ & _ & _ & _ & Hlen & _).
  split; [exact Hresp|exact Hlen].
Defined.

Lemma poll_returns_first_success_witness :
  Provider.answers ready_on_third "tok"
    (map Rejects ["not ready"; "not ready"]%string ++ [Resolves 42]) /\
  (Poll.getAssetReportWithRetries 5 ready_on_third "tok" 1000 3).1
  = Some (Poll.Fulfilled 42) /\
  Poll.delays (Poll.getAssetReportWithRetries 5 ready_on_third "tok" 1000 3).2
  = [1000; 1000].
Proof.
  assert (H1 : Provider.answers ready_on_third "tok"
                 (map Rejects ["not ready"; "not ready"]%string ++ [Resolves 42]))
    by (simpl; repeat split).
  assert (H2 : (length ["not ready"; "not ready"]%string < 5)%nat)
    by (simpl; lia).
  split; [exact H1|].
  destruct (poll_returns_first_success ["not ready"; "not ready"]%string 42 5
              ready_on_third "tok" 1000 H1 H2) as (Hres & _ & _ & Hdel & _).
  split; [exact Hres|exact Hdel].
Defined.

Lemma exhausted_poll_delays_every_attempt_witness :
  Provider.answers never_ready "tok" (map Rejects ["not ready"%string]) /\
  (Poll.getAssetReportWithRetries 5 never_ready "tok" 1000 1).1
  = Some (Poll.Rejected Poll.out_of_retries) /\
  Poll.delays (Poll.getAssetReportWithRetries 5 never_ready "tok" 1000 1).2
  = [1000].
Proof.
  assert (H0 : ["not ready"%string] <> []) by discriminate.
  assert (H1 : Provider.answers never_ready "tok"
                 (map Rejects ["not ready"%string]))
    by (simpl; repeat split).
  assert (H2 : (length ["not ready"%string] <= 5)%nat) by (simpl; lia).
  split; [exact H1|].
  destruct (exhausted_poll_delays_every_attempt ["not ready"%string] 5
              never_ready "tok" 1000 H0 H1 H2) as (_ & _ & Hdel & _ & Hres).
  split; [exact (Hres eq_refl)|exact Hdel].
Defined.

Lemma exhaustion_is_fixed_message_witness :
  Provider.answers never_ready "tok"
    (map Rejects ["not ready"; "not ready"; "not ready"]%string) /\
  Poll.rejections (Poll.getAssetReportWithRetries 5 never_ready "tok" 1000 3).2
  = ["Ran out of retries while polling for asset report"%string].
Proof.
  assert (H0 : ["not ready"; "not ready"; "not ready"]%string <> [])
    by discriminate.
  assert (H1 : Provider.answers never_ready "tok"
                 (map Rejects ["not ready"; "not ready"; "not ready"]%string))
    by (simpl; repeat split).
  assert (H2 : (length ["not ready"; "not ready"; "not ready"]%string <= 5)%nat)
    by (simpl; lia).
  split; [exact H1|].
  exact (proj1 (exhaustion_is_fixed_message
                  ["not ready"; "not ready"; "not ready"]%string 5
                  never_ready "tok" 1000 H0 H1 H2)).
Defined.


Lemma exhaustion_not_forwarded_witness :
  Provider.answers never_ready "tok"
    (map Rejects ["not ready"; "not ready"]%string) /\
  (Poll.getAssetReportWithRetries 5 never_ready "tok" 1000 2).1
  = Some Poll.Pending /\
  Poll.rejections (Poll.getAssetReportWithRetries 5 never_ready "tok" 1000 2).2
  = [Poll.out_of_retries].
Proof.
  assert (H0 : (2 <= length ["not ready"; "not ready"]%string)%nat)
    by (simpl; lia).
  assert (H1 : Provider.answers never_ready "tok"
                 (map Rejects ["not ready"; "not ready"]%string))
    by (simpl; repeat split).
  assert (H2 : (length ["not ready"; "not ready"]%string <= 5)%nat)
    by (simpl; lia).
  split; [exact H1|].
  destruct (exhaustion_not_forwarded ["not ready"; "not ready"]%string 5
              never_ready "tok" 1000 H0 H1 H2) as (Hres & Hrej & _).
  split; [exact Hres|exact Hrej].
Defined.

(** C5 as stated fails.  With a budget of one attempt that fails, one
    delay of a second runs before the rejection, not zero; with a budget
    of two, two delays run, not one, and the promise handed to the caller
    is not rejected. *)
Lemma final_attempt_is_followed_by_a_delay :
  let one := Poll.getAssetReportWithRetries 5 never_ready "tok" 1000 1 in
  let two := Poll.getAssetReportWithRetries 5 never_ready "tok" 1000 2 in
  (one.1 = Some (Poll.Rejected Poll.out_of_retries) /\
   length (Poll.attempts one.2) = 1%nat /\
   Poll.delays one.2 = [1000] /\
   length (Poll.delays one.2) <> (1 - 1)%nat) /\
  (length (Poll.attempts two.2) = 2%nat /\
   length (Poll.delays two.2) <> (2 - 1)%nat /\
   two.1 <> Some (Poll.Rejected Poll.out_of_retries)).
Proof. simpl. repeat split; discriminate. Qed.

(** C6 as stated fails.  No reading of the rejection message gives the
    number of attempts made: a poll exhausted after one attempt and a
    poll exhausted after three reject with the same string. *)
Lemma exhaustion_message_carries_no_count :
  ~ exists count_of : string -> nat,
      forall m, (m = 1 \/ m = 3)%nat ->
        let run :=
          Poll.getAssetReportWithRetries 5 never_ready "tok" 1000 (Z.of_nat m) in
        map count_of (Poll.rejections run.2) = [length (Poll.attempts run.2)].
Proof.
  intros [count_of Hcount].
  pose proof (Hcount 1%nat (or_introl eq_refl)) as H1.
  pose proof (Hcount 3%nat (or_intror eq_refl)) as H3.
  simpl in H1, H3. congruence.
Qed.

(** C8 as stated fails.  The caller raises its signal while the first
    delay is in flight; the poll goes on to the second and third attempt
    and is fulfilled with the report.  And with the signal raised while
    the first fetch is awaited, the handler goes on to fetch all three
    pages and answers; it passes no error on. *)
Lemma poll_runs_on_after_cancellation :
  let run :=
    Cancellation.getAssetReportWithRetries_signalled
      Cancellation.during_first_delay 5 ready_on_third "tok" 1000 3 in
  let handled :=
    Cancellation.transactions_signalled (fun _ => true) 5 three_pages 7 in
  Cancellation.during_first_delay 1%nat = true /\
  run.1 = Some (Poll.Fulfilled 42) /\
  length (Poll.attempts run.2) = 3%nat /\
  ~ Cancellation.cancelled_in_first_delay run /\
  Route.response handled = Route.Json [txB; txA] /\
  length (Sync.fetches (Route.trace handled)) = 3%nat /\
  ~ exists t, Route.response handled = Route.Next t.
Proof.
  simpl. split_and!; try reflexivity.
  - intros [[reason [Hr _]] _]. discriminate.
  - intros [t Ht]. vm_compute in Ht. discriminate.
Qed.

Lemma cancellation_signal_unobserved_witness :
  Poll.delays
    (Cancellation.getAssetReportWithRetries_signalled
       Cancellation.during_first_delay 5 ready_on_third "tok" 1000 3).2
    !! 0%nat = Some 1000 /\
  is_Some
    (Poll.attempts
       (Cancellation.getAssetReportWithRetries_signalled
          Cancellation.during_first_delay 5 ready_on_third "tok" 1000 3).2
     !! 1%nat).
Proof.
  assert (H1 : 3 <> 1) by discriminate.
  assert (H2 : (1 < 5)%nat) by lia.
  exact (proj1 (cancellation_signal_unobserved Cancellation.during_first_delay
                  5 ready_on_third "tok" 1000 3 7)
           0%nat "not ready"%string 3 eq_refl eq_refl H1 H2).
Defined.

End Scenarios.

(** * Further properties of the routes *)

(** ** More on [/transactions] *)

Section MoreSyncFacts.
Context {World Err Report : Type} `{!PlaidClient World Err Report}.

Lemma run_token token vs c (fs : list (SyncRequest * Settled SyncData Err)) :
  Sync.Run token vs c fs ->
  Forall (fun fr => access_token fr.1 = token) fs.
Proof.
  induction 1 as [vs Hm|vs p c fs Hm Hrun IH|vs e Hm|vs Hm];
    repeat constructor; done.
Qed.

Lemma loop_printed fuel : forall token w vs,
  Traces.printed (Sync.loop fuel token w vs).2
  = Sync.pages_of (Sync.fetches (Sync.loop fuel token w vs).2).
Proof.
  induction fuel as [|fuel IH]; intros token w vs; simpl.
  - by destruct (Sync.v_hasMore vs).
  - destruct (Sync.v_hasMore vs); [|done].
    destruct (transactionsSync w _) as [[data|e] w']; [|done].
    specialize (IH token w' (Sync.merge vs data)).
    destruct (Sync.loop fuel token w' (Sync.merge vs data)) as [c evs].
    simpl in *. by rewrite IH.
Qed.

Lemma loop_endless fuel : forall token w vs,
  (forall w' req, exists p w'',
      transactionsSync w' req = (Resolves p, w'') /\ has_more p = true) ->
  Sync.v_hasMore vs = true ->
  (Sync.loop fuel token w vs).1 = OutOfFuel /\
  length (Sync.fetches (Sync.loop fuel token w vs).2) = fuel.
Proof.
  induction fuel as [|fuel IH]; intros token w vs Hmore Hm; simpl; rewrite Hm;
    [done|].
  destruct (Hmore w {| access_token := token; cursor := Sync.v_cursor vs |})
    as (p & w' & -> & Hp).
  destruct (IH token w' (Sync.merge vs p) Hmore Hp) as [Hc Hlen].
  destruct (Sync.loop fuel token w' (Sync.merge vs p)) as [c evs].
  simpl in *. by rewrite Hlen.
Qed.

(** X1.  The loop has no bound of its own: against a provider whose every
    page announces [has_more = true], however many iterations are allowed
    the loop has made that many fetch calls and is still running, and the
    handler has neither answered nor called [next]. *)
Theorem sync_runs_while_provider_has_more fuel w id :
  (forall w' req, exists p w'',
      transactionsSync w' req = (Resolves p, w'') /\ has_more p = true) ->
  forall token, findAccessToken w id = Some token ->
  let out := Route.transactions fuel w id in
  Route.response out = Route.Looping /\
  length (Sync.fetches (Route.trace out)) = fuel.
Proof.
  intros Hmore token Htok out.
  destruct (transactions_cases fuel w id token Htok) as [Htr Hcase].
  destruct (loop_endless fuel token w Sync.init Hmore eq_refl) as [Hc Hlen].
  fold (Sync.sync fuel token w) in Hc, Hlen.
  subst out. rewrite Htr, Hlen. split; [|done].
  rewrite Hc in Hcase. by destruct Hcase.
Qed.

(** X2.  Every [transactionsSync] call of the handler is made with the
    access token stored for the user of the request; when none is stored
    the handler makes no call at all and passes the error
    ["No access token found"] to [next]. *)
Theorem fetches_use_the_stored_token fuel w id :
  let out := Route.transactions fuel w id in
  match findAccessToken w id with
  | Some token =>
      Forall (fun fr => access_token fr.1 = token) (Sync.fetches (Route.trace out))
  | None =>
      Route.trace out = [] /\
      Route.response out = Route.Next (JsError "No access token found")
  end.
Proof.
  intros out. destruct (findAccessToken w id) as [token|] eqn:Htok.
  - destruct (transactions_cases fuel w id token Htok) as [Htr _].
    subst out. rewrite Htr. eapply run_token, loop_run.
  - subst out. by rewrite (transactions_no_token _ _ _ Htok).
Qed.

(** X3.  [prettyPrintResponse] logs exactly the pages that resolved, once
    each and in fetch order; a fetch that fails is not logged by the
    handler. *)
Theorem every_resolved_page_is_logged fuel w id :
  let out := Route.transactions fuel w id in
  Traces.printed (Route.trace out)
  = Sync.pages_of (Sync.fetches (Route.trace out)).
Proof.
  intros out. destruct (findAccessToken w id) as [token|] eqn:Htok.
  - destruct (transactions_cases fuel w id token Htok) as [Htr _].
    subst out. rewrite Htr. apply loop_printed.
  - subst out. by rewrite (transactions_no_token _ _ _ Htok).
Qed.

End MoreSyncFacts.

(** ** More on the recent slice *)

Section MoreArrayFacts.
Import Arrays.

Lemma compare_le_trans : forall s1 s2 s3 : string,
  String.compare s1 s2 <> Gt -> String.compare s2 s3 <> Gt ->
  String.compare s1 s3 <> Gt.
Proof.
  induction s1 as [|a s1 IH]; intros [|b s2] [|c s3]; simpl; try done.
  unfold Ascii.compare.
  destruct (N.compare_spec (N_of_ascii a) (N_of_ascii b)) as [Hab|Hab|Hab];
    destruct (N.compare_spec (N_of_ascii b) (N_of_ascii c)) as [Hbc|Hbc|Hbc];
    destruct (N.compare_spec (N_of_ascii a) (N_of_ascii c)) as [Hac|Hac|Hac];
    try done; try lia.
  apply IH.
Qed.

Lemma date_le_trans a b c : date_le a b -> date_le b c -> date_le a c.
Proof.
  unfold date_le, String.leb. intros Hab Hbc.
  pose proof (compare_le_trans (date a) (date b) (date c)) as Ht.
  destruct (String.compare (date a) (date b)),
    (String.compare (date b) (date c)),
    (String.compare (date a) (date c)); try done; exfalso; by apply Ht.
Qed.

Lemma strongly_sorted_app (l1 l2 : list Transaction) :
  StronglySorted date_le (l1 ++ l2) ->
  forall a b, a ∈ l1 -> b ∈ l2 -> date_le a b.
Proof.
  induction l1 as [|x l1 IH]; simpl; intros Hs a b Ha Hb.
  - by apply elem_of_nil in Ha.
  - apply StronglySorted_inv in Hs as [Hs Hall].
    apply elem_of_cons in Ha as [->|Ha]; [|by eapply IH].
    rewrite List.Forall_forall in Hall. apply Hall.
    apply list_elem_of_In, elem_of_app. by right.
Qed.

Lemma sorted_by_strongly l :
  StronglySorted date_le (sorted_by compareTxnsByDateAscending l).
Proof.
  apply Sorted_StronglySorted; [|apply sorted_by_sorted].
  intros a b c. apply date_le_trans.
Qed.

Lemma compare_refl (s : string) : String.compare s s = Eq.
Proof.
  pose proof (String.compare_antisym s s) as Hanti.
  by destruct (String.compare s s).
Qed.

(** X4.  The comparator is a consistent one: it returns -1, 0 or 1, it
    changes sign when its arguments are swapped, it returns 0 exactly for
    transactions of the same date, and it orders transitively. *)
Theorem compareTxnsByDateAscending_consistent a b c :
  (compareTxnsByDateAscending a b = -1 \/
   compareTxnsByDateAscending a b = 0 \/
   compareTxnsByDateAscending a b = 1) /\
  compareTxnsByDateAscending a b = - compareTxnsByDateAscending b a /\
  (compareTxnsByDateAscending a b = 0 <-> date a = date b) /\
  (compareTxnsByDateAscending a b <= 0 ->
   compareTxnsByDateAscending b c <= 0 ->
   compareTxnsByDateAscending a c <= 0).
Proof.
  split_and!.
  - unfold compareTxnsByDateAscending, String.ltb.
    rewrite (String.compare_antisym (date a) (date b)).
    destruct (String.compare (date b) (date a)); simpl; lia.
  - unfold compareTxnsByDateAscending. lia.
  - unfold compareTxnsByDateAscending, String.ltb. split.
    + rewrite (String.compare_antisym (date a) (date b)).
      destruct (String.compare (date b) (date a)) eqn:Hc; simpl; try lia.
      intros _. symmetry. by apply String.compare_eq_iff.
    + intros ->. rewrite compare_refl. done.
  - intros Hab Hbc.
    assert (Hle : forall x y, compareTxnsByDateAscending x y <= 0 <-> date_le x y).
    { intros x y. split.
      - intros Hxy. apply not_after_le. apply Z.ltb_ge. lia.
      - intros Hxy. destruct (0 <? compareTxnsByDateAscending x y) eqn:Hpos.
        + apply compare_positive in Hpos. unfold date_le, String.leb in Hxy.
          unfold String.ltb in Hpos.
          rewrite (String.compare_antisym (date x) (date y)) in Hxy.
          by destruct (String.compare (date y) (date x)).
        + by apply Z.ltb_ge in Hpos. }
    apply Hle. eapply date_le_trans; by apply Hle.
Qed.

End MoreArrayFacts.

Section RecentFacts.
Context {World Err Report : Type} `{!PlaidClient World Err Report}.

(** X5.  Once the loop has drained the feed the handler answers, and the
    answer holds [min 8 n] transactions when [n] were added in all; when
    at most 8 were added it holds every one of them. *)
Theorem latest_transactions_count fuel w id token vs :
  findAccessToken w id = Some token ->
  (Sync.sync fuel token w).1 = Returned vs ->
  let out := Route.transactions fuel w id in
  let accumulated :=
    concat (map added (Sync.pages_of (Sync.fetches (Route.trace out)))) in
  let l := Arrays.recent accumulated in
  Route.response out = Route.Json l /\
  length l = Nat.min 8 (length accumulated) /\
  ((length accumulated <= 8)%nat -> Permutation l accumulated).
Proof.
  intros Htok Hret out accumulated l.
  destruct (drained_is_answered fuel w id token vs Htok Hret) as (Hresp & Hacc & _).
  fold out accumulated in Hresp, Hacc. rewrite Hacc in Hresp.
  split; [exact Hresp|]. subst l. unfold Arrays.recent.
  rewrite sliced_last8.
  pose proof (sorted_by_perm Arrays.compareTxnsByDateAscending accumulated) as Hp.
  pose proof (Permutation_length Hp) as Hlen.
  split.
  - rewrite length_drop. lia.
  - intros Hsmall.
    replace (length (Arrays.sorted_by Arrays.compareTxnsByDateAscending accumulated) - 8)%nat
      with 0%nat by lia.
    by rewrite drop_0.
Qed.

(** X6.  Once the loop has drained the feed the handler answers with the
    latest transactions: the sorted copy splits into the ones left out,
    all but the last 8, and the answer, and every one left out has a date
    no later than every one in the answer. *)
Theorem latest_transactions_are_the_latest fuel w id token vs :
  findAccessToken w id = Some token ->
  (Sync.sync fuel token w).1 = Returned vs ->
  let out := Route.transactions fuel w id in
  let accumulated :=
    concat (map added (Sync.pages_of (Sync.fetches (Route.trace out)))) in
  let copy := Arrays.sorted_by Arrays.compareTxnsByDateAscending accumulated in
  let left_out := take (length accumulated - 8)%nat copy in
  let l := drop (length accumulated - 8)%nat copy in
  Route.response out = Route.Json l /\
  Permutation (left_out ++ l) accumulated /\
  length left_out = (length accumulated - 8)%nat /\
  forall a b, a ∈ left_out -> b ∈ l -> Arrays.date_le a b.
Proof.
  intros Htok Hret out accumulated copy left_out l.
  destruct (drained_is_answered fuel w id token vs Htok Hret) as (Hresp & Hacc & _).
  fold out accumulated in Hresp, Hacc. rewrite Hacc in Hresp.
  pose proof (sorted_by_perm Arrays.compareTxnsByDateAscending accumulated) as Hp.
  pose proof (Permutation_length Hp) as Hlen. fold copy in Hp, Hlen.
  subst left_out l. split_and!.
  - rewrite Hresp. unfold Arrays.recent. rewrite sliced_last8.
    fold copy. by rewrite Hlen.
  - by rewrite take_drop.
  - rewrite length_take. lia.
  - apply strongly_sorted_app. rewrite take_drop. apply sorted_by_strongly.
Qed.

(** X7.  Once the loop has drained the feed the handler answers, and for
    every date the transactions of that date come in the answer in the
    order in which they were fetched, the ones kept being the last fetched
    of that date. *)
Theorem same_date_keeps_fetch_order fuel w id token vs d :
  findAccessToken w id = Some token ->
  (Sync.sync fuel token w).1 = Returned vs ->
  let out := Route.transactions fuel w id in
  let accumulated :=
    concat (map added (Sync.pages_of (Sync.fetches (Route.trace out)))) in
  let l := Arrays.recent accumulated in
  Route.response out = Route.Json l /\
  filter (fun t => date t = d) l `suffix_of` filter (fun t => date t = d) accumulated.
Proof.
  intros Htok Hret out accumulated l.
  destruct (drained_is_answered fuel w id token vs Htok Hret) as (Hresp & Hacc & _).
  fold out accumulated in Hresp, Hacc. rewrite Hacc in Hresp.
  split; [exact Hresp|]. subst l. unfold Arrays.recent.
  rewrite sliced_last8.
  set (copy := Arrays.sorted_by Arrays.compareTxnsByDateAscending accumulated).
  rewrite <- (sorted_by_stable d accumulated). fold copy.
  exists (filter (fun t => date t = d) (take (length copy - 8) copy)).
  by rewrite <- filter_app, take_drop.
Qed.

End RecentFacts.

(** ** More on polling *)

Section MorePollFacts.
Context {World Err Report : Type} `{!PlaidClient World Err Report}.
Import Poll.
Implicit Types (w : World) (errs : list Err).

Lemma poll_first_success errs : forall v fuel w token ms n,
  Provider.answers w token (map Rejects errs ++ [Resolves v]) ->
  (length errs < fuel)%nat ->
  n <= 0 \/ Z.of_nat (length errs) < n ->
  let run := getAssetReportWithRetries fuel w token ms n in
  run.1 = Some (Fulfilled v) /\
  attempts run.2 = map Rejects errs ++ [Resolves v] /\
  delays run.2 = repeat ms (length errs) /\
  rejections run.2 = [].
Proof.
  induction errs as [|e errs IH]; intros v fuel w token ms n Hans Hfuel Hn;
    (destruct fuel as [|fuel]; [simpl in Hfuel; lia|]);
    simpl in Hans; destruct Hans as [Hcall Hrest];
    destruct (assetReportGet w {| asset_report_token := token |}) as [r w'] eqn:Hget;
    simpl in Hcall, Hrest; subst r.
  - simpl. rewrite Hget. done.
  - intros run. subst run.
    rewrite (poll_retry _ _ _ _ _ _ _ Hget) by (simpl length in Hn; lia).
    destruct (IH v fuel w' token ms (n - 1) Hrest) as (Hres & Hatt & Hdel & Hrej).
    { simpl in Hfuel. lia. }
    { simpl length in Hn. lia. }
    simpl. by rewrite Hres, Hatt, Hdel, Hrej.
Qed.

Lemma poll_shape fuel : forall w token ms n,
  let evs := (getAssetReportWithRetries fuel w token ms n).2 in
  Forall (fun d => d = ms) (delays evs) /\
  Forall (fun i => i = ms) (Traces.intervals evs) /\
  Forall (fun req => req = {| asset_report_token := token |})
    (Traces.attempt_requests evs) /\
  length (delays evs) = length (List.filter Traces.failed (attempts evs)).
Proof.
  induction fuel as [|fuel IH]; intros w token ms n; simpl.
  - by repeat constructor.
  - destruct (assetReportGet w {| asset_report_token := token |}) as [[v|e] w'].
    + simpl. by repeat constructor.
    + destruct (n =? 1).
      * simpl. by repeat constructor.
      * specialize (IH w' token ms (n - 1)).
        destruct (getAssetReportWithRetries fuel w' token ms (n - 1)) as [r evs].
        simpl in *. destruct IH as (Hd & Hi & Hr & Hlen).
        split_and!; try (by constructor). by rewrite Hlen.
Qed.

Lemma poll_without_budget fuel : forall w token ms n,
  n <= 0 ->
  let run := getAssetReportWithRetries fuel w token ms n in
  rejections run.2 = [] /\
  (run.1 = None \/ exists v, run.1 = Some (Fulfilled v)).
Proof.
  induction fuel as [|fuel IH]; intros w token ms n Hn; simpl; [by auto|].
  destruct (assetReportGet w {| asset_report_token := token |}) as [[v|e] w'].
  - simpl. eauto.
  - destruct (Z.eqb_spec n 1) as [->|_]; [lia|].
    destruct (IH w' token ms (n - 1)) as [Hrej Hres]; [lia|].
    destruct (getAssetReportWithRetries fuel w' token ms (n - 1)) as [r evs].
    simpl in *. split; [done|].
    destruct Hres as [->|[v ->]]; simpl; eauto.
Qed.

Lemma poll_never_ready fuel : forall w token ms n,
  n <= 0 ->
  (forall w' req, exists e w'', assetReportGet w' req = (Rejects e, w'')) ->
  let run := getAssetReportWithRetries fuel w token ms n in
  run.1 = None /\ length (attempts run.2) = fuel.
Proof.
  induction fuel as [|fuel IH]; intros w token ms n Hn Hfail; simpl; [done|].
  destruct (Hfail w {| asset_report_token := token |}) as (e & w' & ->).
  destruct (Z.eqb_spec n 1) as [->|_]; [lia|].
  destruct (IH w' token ms (n - 1)) as [Hres Hlen]; [lia|done|].
  destruct (getAssetReportWithRetries fuel w' token ms (n - 1)) as [r evs].
  simpl in *. by rewrite Hres, Hlen.
Qed.

(** X8.  A poll is fulfilled with the first success of the provider
    whenever that success comes within the budget: after k failures and a
    success, with a budget above k, the promise is fulfilled with that
    value after k+1 attempts and k delays of [ms], and [reject] is never
    called.  The same holds for any number of failures when the budget is
    zero or negative. *)
Theorem poll_returns_the_first_success errs v fuel w token ms n :
  Provider.answers w token (map Rejects errs ++ [Resolves v]) ->
  (length errs < fuel)%nat ->
  n <= 0 \/ Z.of_nat (length errs) < n ->
  let run := getAssetReportWithRetries fuel w token ms n in
  run.1 = Some (Fulfilled v) /\
  attempts run.2 = map Rejects errs ++ [Resolves v] /\
  length (attempts run.2) = S (length errs) /\
  delays run.2 = repeat ms (length errs) /\
  rejections run.2 = [].
Proof.
  intros Hans Hfuel Hn run.
  destruct (poll_first_success errs v fuel w token ms n Hans Hfuel Hn)
    as (Hres & Hatt & Hdel & Hrej).
  subst run. split_and!; try done.
  rewrite Hatt, length_app, length_map. simpl. lia.
Qed.

(** X9.  A poll started with a budget of M >= 1 makes at most M attempts
    and waits at most M times, whatever the provider answers and however
    long it is left to run. *)
Theorem poll_is_bounded_by_its_budget fuel w token ms M :
  1 <= M ->
  let run := getAssetReportWithRetries fuel w token ms M in
  Z.of_nat (length (attempts run.2)) <= M /\
  Z.of_nat (length (delays run.2)) <= M.
Proof.
  intros HM run.
  destruct (poll_budgets fuel w token ms M HM) as [Hclosed Hlen].
  destruct (poll_shape fuel w token ms M) as (_ & _ & _ & Hdel).
  fold run in Hclosed, Hlen, Hdel.
  assert (Hatt : Z.of_nat (length (attempts run.2)) <= M).
  { rewrite <- Hlen.
    destruct (budgets run.2) as [|b0 bs] eqn:Hb using rev_ind; [simpl; lia|].
    destruct (Hclosed (length bs) b0) as [Hb0 Hpos].
    { by rewrite lookup_app_r, Nat.sub_diag. }
    rewrite length_app. simpl. lia. }
  split; [done|]. rewrite Hdel.
  pose proof (List.filter_length_le Traces.failed (attempts run.2)). lia.
Qed.

(** X10.  A poll started with a budget of zero or less never gives up: it
    never calls [reject] and can only end fulfilled; against a provider
    that is never ready it is still polling after any number of attempts. *)
Theorem poll_without_budget_never_gives_up fuel w token ms n :
  n <= 0 ->
  let run := getAssetReportWithRetries fuel w token ms n in
  rejections run.2 = [] /\
  (run.1 = None \/ exists v, run.1 = Some (Fulfilled v)) /\
  ((forall w' req, exists e w'', assetReportGet w' req = (Rejects e, w'')) ->
   run.1 = None /\ length (attempts run.2) = fuel).
Proof.
  intros Hn run.
  destruct (poll_without_budget fuel w token ms n Hn) as [Hrej Hres].
  split_and!; [done..|]. intros Hfail. by apply poll_never_ready.
Qed.

(** X11.  A poll waits the same [ms] every time and passes it on
    unchanged, asks for the same report token at every attempt, and waits
    exactly once after each failed attempt and never after a success. *)
Theorem poll_has_a_fixed_interval fuel w token ms n :
  let evs := (getAssetReportWithRetries fuel w token ms n).2 in
  Forall (fun d => d = ms) (delays evs) /\
  Forall (fun i => i = ms) (Traces.intervals evs) /\
  Forall (fun req => req = {| asset_report_token := token |})
    (Traces.attempt_requests evs) /\
  length (delays evs) = length (List.filter Traces.failed (attempts evs)) /\
  (length (delays evs) <= length (attempts evs))%nat.
Proof.
  intros evs.
  destruct (poll_shape fuel w token ms n) as (Hd & Hi & Hr & Hlen).
  fold evs in Hd, Hi, Hr, Hlen. split_and!; try done.
  rewrite Hlen. apply List.filter_length_le.
Qed.

End MorePollFacts.

(** ** The [/assets] route *)

Section AssetFacts.
Context {World Err Report Pdf : Type}
  `{!PlaidClient World Err Report} `{!Assets.AssetClient World Err Pdf}.
Implicit Types (w : World) (errs : list Err).

Lemma polled_map (pre : list (Assets.Event Err Report Pdf)) evs :
  Assets.polled (pre ++ map Assets.EvPoll evs) = Assets.polled pre ++ evs.
Proof.
  induction pre as [|[] pre IH]; simpl; rewrite ?IH; try done.
  induction evs as [|e evs IH]; simpl; by rewrite ?IH.
Qed.

Lemma polled_app (l1 l2 : list (Assets.Event Err Report Pdf)) :
  Assets.polled (l1 ++ l2) = Assets.polled l1 ++ Assets.polled l2.
Proof. induction l1 as [|[] l1 IH]; simpl; by rewrite ?IH. Qed.

Lemma pdf_requests_app (l1 l2 : list (Assets.Event Err Report Pdf)) :
  Assets.pdf_requests (l1 ++ l2)
  = Assets.pdf_requests l1 ++ Assets.pdf_requests l2.
Proof. induction l1 as [|[] l1 IH]; simpl; by rewrite ?IH. Qed.

Lemma pdf_requests_map (evs : list (Poll.Event Err Report)) :
  Assets.pdf_requests (Pdf := Pdf) (map Assets.EvPoll evs) = [].
Proof. induction evs as [|e evs IH]; simpl; by rewrite ?IH. Qed.

(** The world after a poll that meets failures and then a success. *)
Lemma world_after_success errs : forall v fuel w token n,
  Provider.answers w token (map Rejects errs ++ [Resolves v]) ->
  (length errs < fuel)%nat ->
  n <= 0 \/ Z.of_nat (length errs) < n ->
  Assets.world_after fuel w token n
  = Assets.after_calls (S (length errs)) w token.
Proof.
  induction errs as [|e errs IH]; intros v fuel w token n Hans Hfuel Hn;
    (destruct fuel as [|fuel]; [simpl in Hfuel; lia|]);
    simpl in Hans; destruct Hans as [Hcall Hrest]; simpl;
    destruct (assetReportGet w {| asset_report_token := token |}) as [r w'];
    simpl in Hcall, Hrest |- *; subst r; [done|].
  destruct (Z.eqb_spec n 1) as [->|_]; [simpl length in Hn; lia|].
  apply (IH v); [done|simpl in Hfuel; lia|simpl length in Hn; lia].
Qed.

(** X12.  The handler asks for the PDF only after the poll has been
    fulfilled, once, and for the report token that [assetReportCreate]
    returned; when the creation fails nothing else is called and the
    failure goes to [next]. *)
Theorem pdf_is_requested_after_the_report to_base64 fuel ACCESS_TOKEN w :
  let run := Assets.assets to_base64 fuel ACCESS_TOKEN w in
  let configs := {| Assets.access_tokens := [ACCESS_TOKEN];
                    Assets.days_requested := 10;
                    Assets.options := Assets.report_options |} in
  match Assets.assetReportCreate w configs with
  | (Rejects e, _) =>
      run = (Assets.Next e, [Assets.EvCreate configs (Rejects e)])
  | (Resolves token, w1) =>
      Assets.polled run.2
      = (Poll.getAssetReportWithRetries_default fuel w1 token).2 /\
      match (Poll.getAssetReportWithRetries_default fuel w1 token).1 with
      | Some (Poll.Fulfilled report) =>
          Assets.pdf_requests run.2 = [{| asset_report_token := token |}] /\
          forall json pdf, run.1 = Assets.Json json pdf -> json = report
      | _ => Assets.pdf_requests run.2 = []
      end
  end.
Proof.
  intros run configs. subst run. unfold Assets.assets. fold configs.
  destruct (Assets.assetReportCreate w configs) as [[token|e] w1]; [|done].
  destruct (Poll.getAssetReportWithRetries_default fuel w1 token)
    as [[[| report | reason]|] evs]; cbn [fst snd];
    try (split; [by rewrite polled_map|];
         by rewrite pdf_requests_app, pdf_requests_map).
  destruct (Assets.assetReportPdfGet _ _) as [[pdf|e] w3]; cbn [fst snd].
  - rewrite polled_app, polled_map, !pdf_requests_app, pdf_requests_map.
    simpl. rewrite app_nil_r. split_and!; try done.
    intros json pdf' Hj. by injection Hj as <- _.
  - rewrite polled_app, polled_map, !pdf_requests_app, pdf_requests_map.
    simpl. rewrite app_nil_r. split_and!; done.
Qed.

(** X13.  When the report is not ready in any of the twenty attempts of
    the default budget, the handler is left suspended on its [await]: it
    neither answers nor calls [next], after exactly twenty attempts and
    twenty waits of a second, and the PDF is never asked for. *)
Theorem assets_hangs_when_never_ready to_base64 fuel ACCESS_TOKEN w token w1 errs :
  (Assets.assetReportCreate w
     {| Assets.access_tokens := [ACCESS_TOKEN];
        Assets.days_requested := 10;
        Assets.options := Assets.report_options |}).1 = Resolves token ->
  (Assets.assetReportCreate w
     {| Assets.access_tokens := [ACCESS_TOKEN];
        Assets.days_requested := 10;
        Assets.options := Assets.report_options |}).2 = w1 ->
  length errs = 20%nat ->
  Provider.answers w1 token (map Rejects errs) ->
  (20 <= fuel)%nat ->
  let run := Assets.assets to_base64 fuel ACCESS_TOKEN w in
  run.1 = Assets.Hangs /\
  Poll.attempts (Assets.polled run.2) = map Rejects errs /\
  Poll.delays (Assets.polled run.2) = repeat 1000 20 /\
  Assets.pdf_requests run.2 = [].
Proof.
  intros Hc1 Hc2 Hlen Hans Hfuel run. subst run. unfold Assets.assets.
  destruct (Assets.assetReportCreate w _) as [r w1']. simpl in Hc1, Hc2.
  subst r w1'.
  destruct (poll_all_fail errs fuel w1 token 1000)
    as (Hres & Hatt & Hdel & _); [by destruct errs|done|lia|].
  rewrite Hlen in Hres, Hatt, Hdel. change (Z.of_nat 20) with 20 in *.
  unfold Poll.getAssetReportWithRetries_default.
  destruct (Poll.getAssetReportWithRetries fuel w1 token 1000 20) as [p evs].
  simpl in Hres, Hatt, Hdel. subst p.
  destruct (decide (20 = 1)%nat); [lia|]. cbn [fst snd].
  rewrite polled_map, pdf_requests_app, pdf_requests_map. simpl.
  by rewrite Hatt, Hdel.
Qed.

(** X14.  When the report is ready at attempt k+1 <= 20 and the PDF
    request succeeds, the handler answers with that report and the PDF in
    base 64, after k waits of a second; the report was created for the
    value of [ACCESS_TOKEN] and with the fixed options. *)
Theorem assets_answers_when_ready to_base64 fuel ACCESS_TOKEN w token w1
  errs report pdf :
  (Assets.assetReportCreate w
     {| Assets.access_tokens := [ACCESS_TOKEN];
        Assets.days_requested := 10;
        Assets.options := Assets.report_options |}).1 = Resolves token ->
  (Assets.assetReportCreate w
     {| Assets.access_tokens := [ACCESS_TOKEN];
        Assets.days_requested := 10;
        Assets.options := Assets.report_options |}).2 = w1 ->
  (length errs < 20)%nat ->
  Provider.answers w1 token (map Rejects errs ++ [Resolves report]) ->
  (Assets.assetReportPdfGet
     (Assets.after_calls (S (length errs)) w1 token)
     {| asset_report_token := token |}).1 = Resolves pdf ->
  (length errs < fuel)%nat ->
  let run := Assets.assets to_base64 fuel ACCESS_TOKEN w in
  run.1 = Assets.Json report (to_base64 pdf) /\
  Poll.delays (Assets.polled run.2) = repeat 1000 (length errs) /\
  Poll.attempts (Assets.polled run.2) = map Rejects errs ++ [Resolves report].
Proof.
  intros Hc1 Hc2 Hlen Hans Hpdf Hfuel run. subst run. unfold Assets.assets.
  destruct (Assets.assetReportCreate w _) as [r w1']. simpl in Hc1, Hc2.
  subst r w1'.
  destruct (poll_first_success errs report fuel w1 token 1000 20)
    as (Hres & Hatt & Hdel & _); [done|done|lia|].
  rewrite (world_after_success errs report) by (done || lia).
  unfold Poll.getAssetReportWithRetries_default.
  destruct (Poll.getAssetReportWithRetries fuel w1 token 1000 20) as [p evs].
  simpl in Hres, Hatt, Hdel. subst p.
  destruct (Assets.assetReportPdfGet _ _) as [r w3]. simpl in Hpdf. subst r.
  cbn [fst snd]. rewrite polled_app, polled_map. simpl.
  by rewrite app_nil_r, Hatt, Hdel.
Qed.

(** X15.  The handler never passes the exhaustion message of the poll to
    [next]: with the budget of twenty that the handler relies on, no run
    ends that way. *)
Theorem assets_never_reports_exhaustion to_base64 fuel ACCESS_TOKEN w reason :
  (Assets.assets to_base64 fuel ACCESS_TOKEN w).1 <> Assets.NextReason reason.
Proof.
  unfold Assets.assets.
  destruct (Assets.assetReportCreate w _) as [[token|e] w1]; [|done].
  unfold Poll.getAssetReportWithRetries_default.
  pose proof (poll_rejected fuel w1 token 1000 20) as Hrej.
  destruct (Poll.getAssetReportWithRetries fuel w1 token 1000 20)
    as [[[| report | r]|] evs]; cbn [fst snd] in *; try done.
  - by destruct (Assets.assetReportPdfGet _ _) as [[pdf|e] w3].
  - destruct (Hrej r eq_refl). lia.
Qed.

End AssetFacts.

(** ** Errors on their way to the caller *)

Section ErrorFacts.
Context {World Err Report Value : Type} `{!PlaidClient World Err Report}.
Implicit Types (response_of : Err -> option (Errors.ErrorResponse Value)).

Lemma middleware_replies (r : Errors.ErrorResponse Value) :
  Errors.error_middleware (Some r)
  = Errors.Replied (Errors.data r)
      {| Errors.error :=
           <["status_code"%string := Errors.status r]> (default ∅ (Errors.data r)) |}.
Proof. done. Qed.

(** What the handler passed to [next], read off the response. *)
Lemma next_thrown fuel w id t :
  Route.response (Route.transactions fuel w id) = Route.Next t ->
  (findAccessToken w id = None /\ t = JsError "No access token found") \/
  exists req e,
    t = ClientRejection e /\
    last (Sync.fetches (Route.trace (Route.transactions fuel w id)))
    = Some (req, Rejects e).
Proof.
  intros Ht. destruct (findAccessToken w id) as [tok|] eqn:Htok.
  - right. destruct (transactions_cases fuel w id tok Htok) as [Htr Hcase].
    pose proof (loop_run fuel tok w Sync.init) as Hrun.
    fold (Sync.sync fuel tok w) in Hrun. rewrite Htr.
    destruct (Sync.sync fuel tok w) as [c evs]. simpl in *.
    destruct c as [vs|t'|]; destruct Hcase as [Hresp _];
      rewrite Hresp in Ht; try discriminate.
    injection Ht as <-. by apply run_threw in Hrun.
  - left. rewrite (transactions_no_token _ _ _ Htok) in Ht.
    simpl in Ht. by injection Ht as <-.
Qed.


(** X17.  When the middleware replies to a failed [/transactions], the
    last fetch call was rejected with an error that carries a response;
    the body logged is that response's data, and the reply is
    [{ error }] where [error.status_code] is the status of the response,
    also when the data had a [status_code] of its own, and every other
    field is the one of the data. *)
Theorem error_body_has_the_status response_of fuel w id logged body :
  Errors.transactions_served response_of fuel w id
  = Errors.Failed (Errors.Replied logged body) ->
  exists req e r,
    last (Sync.fetches (Route.trace (Route.transactions fuel w id)))
    = Some (req, Rejects e) /\
    response_of e = Some r /\
    logged = Errors.data r /\
    Errors.error body !! "status_code"%string = Some (Errors.status r) /\
    forall key, key <> "status_code"%string ->
      Errors.error body !! key = default ∅ (Errors.data r) !! key.
Proof.
  unfold Errors.transactions_served. intros Hs.
  destruct (Route.response (Route.transactions fuel w id)) as [l|t|] eqn:Hresp;
    try discriminate.
  destruct (next_thrown _ _ _ _ Hresp) as [[_ ->]|(req & e & -> & Hlast)];
    [discriminate|].
  simpl in Hs. destruct (response_of e) as [r|] eqn:Hr; [|discriminate].
  rewrite middleware_replies in Hs. injection Hs as <- <-.
  exists req, e, r. split_and!; try done.
  - apply lookup_insert_eq.
  - intros key Hkey. simpl. by rewrite lookup_insert_ne.
Qed.

End ErrorFacts.

(** ** The transfer routes *)

Section TransferFacts.
Context {World Err : Type} `{!Transfer.TransferClient World Err}.
Import Transfer.

(** X18.  After [/transfer_authorize] has answered with an authorization,
    a [/transfer_create] sends the id of the first account that
    [accountsGet] listed and the id of that authorization, with the
    description ["Debit"] and the access token of the module variable. *)
Theorem transfer_create_uses_the_authorization (g : Globals) (w : World) data :
  let a := transfer_authorize g w in
  response a = JsonAuthorization data ->
  exists first rest res more,
    (accountsGet w (ACCESS_TOKEN g)).1 = Resolves (first :: rest) /\
    events (transfer_create (globals a) (world a))
    = EvTransfer {| tr_access_token := ACCESS_TOKEN g;
                    tr_account_id := Some (account_id first);
                    tr_authorization_id := Some (authorization_id data);
                    tr_description := "Debit" |} res :: more.
Proof.
  intros a Ha. subst a. unfold transfer_authorize in *.
  destruct (accountsGet w (ACCESS_TOKEN g)) as [[accounts|e] w1]; [|done].
  destruct accounts as [|first rest]; [done|].
  destruct (transferAuthorizationCreate w1 _) as [[data'|e] w2]; [|done].
  simpl in Ha. injection Ha as ->. cbn [globals world].
  exists first, rest. unfold transfer_create. simpl.
  destruct (transferCreate w2 _) as [[tr|e] w3]; by eexists _, _.
Qed.

(** X19.  When [/transfer_authorize] fails, [AUTHORIZATION_ID] and
    [TRANSFER_ID] are as before.  A [TypeError] means that [accountsGet]
    listed no account; then no authorization was asked for and no variable
    changed.  But when accounts were listed and the authorization was
    rejected, [ACCOUNT_ID] already is the first listed account. *)
Theorem failed_authorization_leaves_the_account_set (g : Globals) (w : World) t :
  let a := transfer_authorize g w in
  response a = Next t ->
  AUTHORIZATION_ID (globals a) = AUTHORIZATION_ID g /\
  TRANSFER_ID (globals a) = TRANSFER_ID g /\
  (t = TypeError ->
   (accountsGet w (ACCESS_TOKEN g)).1 = Resolves [] /\
   globals a = g /\
   events a = [EvAccountsGet (ACCESS_TOKEN g) (Resolves [])]) /\
  (forall first rest,
      (accountsGet w (ACCESS_TOKEN g)).1 = Resolves (first :: rest) ->
      ACCOUNT_ID (globals a) = Some (account_id first) /\
      exists e, t = Rejection e).
Proof.
  intros a Ha. subst a. unfold transfer_authorize in *.
  destruct (accountsGet w (ACCESS_TOKEN g)) as [[accounts|e] w1].
  - destruct accounts as [|first rest].
    + simpl in *. split_and!; try done.
    + destruct (transferAuthorizationCreate w1 _) as [[data'|e] w2]; [done|].
      simpl in *. injection Ha as <-. split_and!; try done.
      intros first' rest' Heq. simplify_eq. eauto.
  - simpl in *. injection Ha as <-. split_and!; try done.
Qed.

Lemma handle_keeps_token (r : Route) (g : Globals) (w : World) :
  let res := handle r g w in
  ACCESS_TOKEN (globals res) = ACCESS_TOKEN g /\
  PAYMENT_ID (globals res) = PAYMENT_ID g /\
  Forall (fun ev => sent_access_token ev = None \/
                    sent_access_token ev = Some (ACCESS_TOKEN g)) (events res).
Proof.
  destruct r; simpl.
  - unfold transfer_authorize.
    destruct (accountsGet w (ACCESS_TOKEN g)) as [[[|first rest]|e] w1];
      [| destruct (transferAuthorizationCreate w1 _) as [[data|e] w2] |];
      simpl; split_and!; try done;
      repeat (match goal with |- Forall _ _ => constructor end); simpl; auto.
  - unfold transfer_create.
    destruct (transferCreate w _) as [[data|e] w1];
      simpl; split_and!; try done;
      repeat (match goal with |- Forall _ _ => constructor end); simpl; auto.
Qed.

(** X20.  No transfer request changes [ACCESS_TOKEN] or [PAYMENT_ID]:
    after any sequence of [/transfer_authorize] and [/transfer_create]
    requests both are what they were, and every call to the provider was
    made with that access token; from the values at startup it is [null]
    in every call. *)
Theorem transfer_routes_keep_the_access_token (rs : list Route)
  (g : Globals) (w : World) :
  let run := serve rs g w in
  ACCESS_TOKEN run.1.1 = ACCESS_TOKEN g /\
  PAYMENT_ID run.1.1 = PAYMENT_ID g /\
  Forall (fun ev => sent_access_token ev = None \/
                    sent_access_token ev = Some (ACCESS_TOKEN g)) run.2 /\
  (g = at_startup ->
   Forall (fun ev => sent_access_token ev = None \/
                     sent_access_token ev = Some None) run.2).
Proof.
  intros run. subst run.
  assert (Hinv : ACCESS_TOKEN (serve rs g w).1.1 = ACCESS_TOKEN g /\
                 PAYMENT_ID (serve rs g w).1.1 = PAYMENT_ID g /\
                 Forall (fun ev => sent_access_token ev = None \/
                                   sent_access_token ev = Some (ACCESS_TOKEN g))
                   (serve rs g w).2).
  { revert g w. induction rs as [|r rs IH]; intros g w; simpl.
    - split_and!; [done..|constructor].
    - destruct (handle_keeps_token r g w) as (Ht & Hp & Hev).
      specialize (IH (globals (handle r g w)) (world (handle r g w))).
      destruct (serve rs _ _) as [[g' w'] evs]. simpl in *.
      destruct IH as (Ht' & Hp' & Hev'). rewrite Ht in Ht', Hev'.
      split_and!; [congruence..|]. apply Forall_app. by split. }
  destruct Hinv as (Ht & Hp & Hev). split_and!; try done.
  intros ->. exact Hev.
Qed.

End TransferFacts.

(** ** Configuration and the link token *)

Section ConfigFacts.
Import Config.

Lemma split_nonempty sep s : split sep s <> [].
Proof.
  destruct s as [|c s]; simpl; [done|].
  destruct (Ascii.eqb c sep); [done|]. by destruct (split sep s).
Qed.

Lemma split_concat sep s :
  String.concat (String sep EmptyString) (split sep s) = s.
Proof.
  induction s as [|c s IH]; [done|]. simpl split.
  pose proof (split_nonempty sep s) as Hne.
  destruct (Ascii.eqb_spec c sep) as [->|_].
  - destruct (split sep s) as [|piece pieces]; [done|].
    change (String.concat (String sep "") ("" :: piece :: pieces))%string
      with (String sep (String.concat (String sep "") (piece :: pieces)))%string.
    by rewrite IH.
  - destruct (split sep s) as [|piece pieces]; [done|].
    destruct pieces as [|piece' pieces]; simpl in *; by rewrite <- IH.
Qed.

Lemma split_no_separator sep s :
  Forall (fun piece => ~ In sep (list_ascii_of_string piece)) (split sep s).
Proof.
  induction s as [|c s IH]; simpl.
  - repeat constructor. by intros [].
  - destruct (Ascii.eqb_spec c sep) as [->|Hc].
    + constructor; [by intros []|done].
    + destruct (split sep s) as [|piece pieces].
      * repeat constructor. simpl. intros [?|[]]. done.
      * apply Forall_cons in IH as [Hp Hps]. constructor; [|done].
        simpl. intros [?|?]; done.
Qed.

Lemma or_else_never_empty v fallback :
  fallback <> EmptyString -> or_else v fallback <> EmptyString.
Proof. by destruct v as [[|c s]|]. Qed.

(** X21.  The product and country lists are never empty and no entry
    holds a comma; joined with commas they give back the environment
    variable, or the default when the variable is unset or empty: an
    empty [PLAID_COUNTRY_CODES] means [["US"]], not a list with one empty
    code. *)
Theorem configured_lists_round_trip Products_Transactions env :
  let products := PLAID_PRODUCTS Products_Transactions env in
  let countries := PLAID_COUNTRY_CODES env in
  products <> [] /\ countries <> [] /\
  String.concat "," products = or_else env Products_Transactions /\
  String.concat "," countries = or_else env "US" /\
  Forall (fun piece => ~ In comma (list_ascii_of_string piece)) products /\
  Forall (fun piece => ~ In comma (list_ascii_of_string piece)) countries /\
  (env = None \/ env = Some EmptyString -> countries = ["US"%string]).
Proof.
  intros products countries. subst products countries.
  unfold PLAID_PRODUCTS, PLAID_COUNTRY_CODES. split_and!.
  - apply split_nonempty.
  - apply split_nonempty.
  - apply (split_concat comma).
  - apply (split_concat comma).
  - apply split_no_separator.
  - apply split_no_separator.
  - by intros [->| ->].
Qed.

End ConfigFacts.

Section LinkTokenFacts.
Context {World Err LinkData : Type} `{!LinkToken.LinkClient World Err LinkData}.
Import LinkToken.

(** X22.  The link token request does not carry the user: [user_id] is
    read as a property of the numeric id, which has none, so
    [client_user_id] is the text ["undefined"] for every user.  Any two
    users send the same request, whatever the state of the provider, and
    from one state of the provider they get the same answer.  The optional
    [redirect_uri] and [android_package_name] are sent exactly when their
    environment variable is set and not empty, with its value. *)
Theorem link_token_request_ignores_the_user Products_Transactions env
  (w w' : World) (id id' : Z) :
  let run := create_link_token Products_Transactions env w id in
  client_user_id (user run.2) = "undefined"%string /\
  (create_link_token Products_Transactions env w' id').2 = run.2 /\
  create_link_token Products_Transactions env w id' = run /\
  redirect_uri run.2
  = match Config.env_PLAID_REDIRECT_URI env with
    | Some (String c s) => Some (String c s)
    | Some EmptyString => None
    | None => None
    end /\
  android_package_name run.2
  = match Config.env_PLAID_ANDROID_PACKAGE_NAME env with
    | Some (String c s) => Some (String c s)
    | Some EmptyString => None
    | None => None
    end.
Proof.
  intros run. subst run. unfold create_link_token.
  assert (Hsame : configs_for Products_Transactions env id'
                  = configs_for Products_Transactions env id) by done.
  assert (Hopt : forall v,
             unless_empty (Config.or_else v "")
             = match v with
               | Some (String c s) => Some (String c s)
               | Some EmptyString => None
               | None => None
               end).
  { by intros [[|c s]|]. }
  rewrite Hsame.
  destruct (linkTokenCreate w _) as [[data|e] w1],
    (linkTokenCreate w' _) as [[data'|e'] w1']; cbn [fst snd];
    (split_and!; [done|done|done|apply Hopt|apply Hopt]).
Qed.

End LinkTokenFacts.

(** * The further properties on concrete providers *)

Section MoreScenarios.
Import Scripted Playback.

(** A body with a [status_code] of its own: the reply has the status. *)
Example stale_status_code_is_replaced :
  Errors.transactions_served Playback.response_with_status 5 broken_feed 7
  = Errors.Failed
      (Errors.Replied
         (Some (<["status_code"%string := "stale"%string]>
                  {[ "error_code"%string := "503"%string ]}))
         {| Errors.error :=
              <["status_code"%string := "503"%string]>
                {[ "error_code"%string := "503"%string ]} |}).
Proof. vm_compute. reflexivity. Qed.

(** Empty pieces are kept by [split]. *)
Example split_keeps_empty_pieces :
  Config.PLAID_COUNTRY_CODES (Some "US,,CA,"%string)
  = ["US"; ""; "CA"; ""]%string /\
  Config.PLAID_COUNTRY_CODES (Some ""%string) = ["US"%string].
Proof. split; reflexivity. Qed.

Lemma sync_runs_while_provider_has_more_witness :
  Route.response (Route.transactions (Err := string) (Report := Z) 7 0%nat 1)
  = Route.Looping /\
  length (Sync.fetches
    (Route.trace (Route.transactions (Err := string) (Report := Z) 7 0%nat 1)))
  = 7%nat.
Proof.
  exact (sync_runs_while_provider_has_more (Report := Z) 7 0%nat 1
           (fun w' req =>
              ex_intro _ (Playback.endless_page w')
                (ex_intro _ (S w') (conj eq_refl eq_refl)))
           "access"%string eq_refl).
Defined.

Lemma latest_transactions_count_witness :
  findAccessToken busy_feed 7 = Some "access-7"%string /\
  (Sync.sync 5 "access-7" busy_feed).1 = Returned (Err := string) busy_drained /\
  Route.response (Route.transactions 5 busy_feed 7)
  = Route.Json (Err := string) [d2b; d2c; n1; n2; n3; n4; n5; n6] /\
  length [d2b; d2c; n1; n2; n3; n4; n5; n6] = Nat.min 8 10.
Proof.
  assert (H1 : findAccessToken busy_feed 7 = Some "access-7"%string)
    by reflexivity.
  assert (H2 : (Sync.sync 5 "access-7" busy_feed).1
               = Returned (Err := string) busy_drained) by reflexivity.
  split; [exact H1|]. split; [exact H2|].
  destruct (latest_transactions_count 5 busy_feed 7 "access-7" busy_drained H1 H2)
    as (Hresp & Hlen & _).
  split; [exact Hresp|exact Hlen].
Defined.

Lemma latest_transactions_are_the_latest_witness :
  findAccessToken busy_feed 7 = Some "access-7"%string /\
  (Sync.sync 5 "access-7" busy_feed).1 = Returned (Err := string) busy_drained /\
  Route.response (Route.transactions 5 busy_feed 7)
  = Route.Json (Err := string) [d2b; d2c; n1; n2; n3; n4; n5; n6] /\
  Permutation ([d1; d2a] ++ [d2b; d2c; n1; n2; n3; n4; n5; n6])
    [n6; d2a; n1; d1; d2b; n5; n2; d2c; n4; n3] /\
  forall a b,
    a ∈ [d1; d2a] -> b ∈ [d2b; d2c; n1; n2; n3; n4; n5; n6] ->
    Arrays.date_le a b.
Proof.
  assert (H1 : findAccessToken busy_feed 7 = Some "access-7"%string)
    by reflexivity.
  assert (H2 : (Sync.sync 5 "access-7" busy_feed).1
               = Returned (Err := string) busy_drained) by reflexivity.
  split; [exact H1|]. split; [exact H2|].
  destruct (latest_transactions_are_the_latest 5 busy_feed 7 "access-7"
              busy_drained H1 H2) as (Hresp & Hperm & _ & Hle).
  split; [exact Hresp|]. split; [exact Hperm|exact Hle].
Defined.

Lemma same_date_keeps_fetch_order_witness :
  findAccessToken busy_feed 7 = Some "access-7"%string /\
  (Sync.sync 5 "access-7" busy_feed).1 = Returned (Err := string) busy_drained /\
  Route.response (Route.transactions 5 busy_feed 7)
  = Route.Json (Err := string) [d2b; d2c; n1; n2; n3; n4; n5; n6] /\
  [d2b; d2c] `suffix_of` [d2a; d2b; d2c].
Proof.
  assert (H1 : findAccessToken busy_feed 7 = Some "access-7"%string)
    by reflexivity.
  assert (H2 : (Sync.sync 5 "access-7" busy_feed).1
               = Returned (Err := string) busy_drained) by reflexivity.
  split; [exact H1|]. split; [exact H2|].
  destruct (same_date_keeps_fetch_order 5 busy_feed 7 "access-7" busy_drained
              "2024-01-02"%string H1 H2) as (Hresp & Hsuffix).
  split; [exact Hresp|exact Hsuffix].
Defined.

Lemma poll_returns_the_first_success_witness :
  Provider.answers ready_on_third "tok"
    (map Rejects ["not ready"; "not ready"]%string ++ [Resolves 42]) /\
  (Poll.getAssetReportWithRetries 5 ready_on_third "tok" 1000 20).1
  = Some (Poll.Fulfilled 42) /\
  Poll.delays (Poll.getAssetReportWithRetries 5 ready_on_third "tok" 1000 20).2
  = [1000; 1000].
Proof.
  assert (H1 : Provider.answers ready_on_third "tok"
                 (map Rejects ["not ready"; "not ready"]%string ++ [Resolves 42]))
    by (simpl; repeat split).
  assert (H2 : (length ["not ready"; "not ready"]%string < 5)%nat)
    by (simpl; lia).
  assert (H3 : 20 <= 0 \/ Z.of_nat (length ["not ready"; "not ready"]%string) < 20)
    by (right; simpl; lia).
  split; [exact H1|].
  destruct (poll_returns_the_first_success ["not ready"; "not ready"]%string 42 5
              ready_on_third "tok" 1000 20 H1 H2 H3) as (Hres & _ & _ & Hdel & _).
  split; [exact Hres|exact Hdel].
Defined.

Lemma poll_is_bounded_by_its_budget_witness :
  1 <= 2 /\
  Z.of_nat (length (Poll.attempts
    (Poll.getAssetReportWithRetries 9 never_ready "tok" 1000 2).2)) <= 2.
Proof.
  assert (H : 1 <= 2) by lia.
  split; [exact H|].
  exact (proj1 (poll_is_bounded_by_its_budget 9 never_ready "tok" 1000 2 H)).
Defined.

Lemma poll_without_budget_never_gives_up_witness :
  0 <= 0 /\
  (Poll.getAssetReportWithRetries 9 0%nat "tok" 1000 0).1
  = @None (Poll.Promise Z) /\
  length (Poll.attempts (Err := string)
    (Poll.getAssetReportWithRetries 9 0%nat "tok" 1000 0).2) = 9%nat.
Proof.
  assert (H : 0 <= 0) by lia.
  split; [exact H|].
  exact (proj2 (proj2 (poll_without_budget_never_gives_up 9 0%nat "tok" 1000 0 H))
           (fun w' req =>
              ex_intro _ "not ready"%string (ex_intro _ (S w') eq_refl))).
Defined.

Lemma assets_hangs_when_never_ready_witness :
  (Assets.assets (fun pdf : string => pdf) 25 None Playback.report_never).1
  = Assets.Hangs (Err := string) (Report := Z) /\
  Poll.delays
    (Assets.polled
       (Assets.assets (fun pdf : string => pdf) 25 None Playback.report_never).2)
  = repeat 1000 20.
Proof.
  assert (H1 : length (repeat "not ready"%string 20) = 20%nat) by reflexivity.
  assert (H2 : Provider.answers
                 (Assets.assetReportCreate Playback.report_never
                    {| Assets.access_tokens := [None];
                       Assets.days_requested := 10;
                       Assets.options := Assets.report_options |}).2
                 "report-token" (map Rejects (repeat "not ready"%string 20)))
    by (simpl; repeat split).
  assert (H3 : (20 <= 25)%nat) by lia.
  assert (H4 : (Assets.assetReportCreate Playback.report_never
                  {| Assets.access_tokens := [None];
                       Assets.days_requested := 10;
                       Assets.options := Assets.report_options |}).1
               = Resolves (E := string) "report-token"%string) by reflexivity.
  destruct (assets_hangs_when_never_ready (fun pdf : string => pdf) 25 None
              Playback.report_never "report-token" _
              (repeat "not ready"%string 20) H4 eq_refl H1 H2 H3)
    as (Hres & _ & Hdel & _).
  split; [exact Hres|exact Hdel].
Defined.

Lemma assets_answers_when_ready_witness :
  (Assets.assets (fun pdf : string => pdf) 25 None Playback.report_on_third).1
  = Assets.Json (Err := string) 42 "%PDF".
Proof.
  assert (H1 : (length ["not ready"; "not ready"]%string < 20)%nat)
    by (simpl; lia).
  assert (H2 : Provider.answers
                 (Assets.assetReportCreate Playback.report_on_third
                    {| Assets.access_tokens := [None];
                       Assets.days_requested := 10;
                       Assets.options := Assets.report_options |}).2
                 "report-token"
                 (map Rejects ["not ready"; "not ready"]%string ++ [Resolves 42]))
    by (simpl; repeat split).
  assert (H3 : (length ["not ready"; "not ready"]%string < 25)%nat)
    by (simpl; lia).
  assert (H4 : (Assets.assetReportCreate Playback.report_on_third
                  {| Assets.access_tokens := [None];
                       Assets.days_requested := 10;
                       Assets.options := Assets.report_options |}).1
               = Resolves (E := string) "report-token"%string) by reflexivity.
  assert (H5 : (Assets.assetReportPdfGet
                  (Assets.after_calls
                     (S (length ["not ready"; "not ready"]%string))
                     (Assets.assetReportCreate Playback.report_on_third
                        {| Assets.access_tokens := [None];
                       Assets.days_requested := 10;
                       Assets.options := Assets.report_options |}).2
                     "report-token")
                  {| asset_report_token := "report-token" |}).1
               = Resolves (E := string) "%PDF"%string) by reflexivity.
  exact (proj1 (assets_answers_when_ready (fun pdf : string => pdf) 25 None
                  Playback.report_on_third "report-token" _
                  ["not ready"; "not ready"]%string 42 "%PDF"%string
                  H4 eq_refl H1 H2 H5 H3)).
Defined.

Lemma assets_never_reports_exhaustion_witness :
  (Assets.assets (fun pdf : string => pdf) 25 None Playback.report_never).1
  <> Assets.NextReason (Err := string) (Report := Z) Poll.out_of_retries.
Proof.
  exact (assets_never_reports_exhaustion (fun pdf : string => pdf) 25 None
           Playback.report_never Poll.out_of_retries).
Defined.


Lemma error_body_has_the_status_witness :
  exists req e r,
    last (Sync.fetches (Route.trace (Route.transactions 5 broken_feed 7)))
    = Some (req, Rejects e) /\
    Playback.response_with_status e = Some r /\
    Some (<["status_code"%string := "stale"%string]>
            {[ "error_code"%string := "503"%string ]}) = Errors.data r /\
    (<["status_code"%string := "503"%string]>
       ({[ "error_code"%string := "503"%string ]} : gmap string string))
      !! "status_code"%string = Some (Errors.status r) /\
    forall key, key <> "status_code"%string ->
      (<["status_code"%string := "503"%string]>
         ({[ "error_code"%string := "503"%string ]} : gmap string string)) !! key
      = default ∅ (Errors.data r) !! key.
Proof.
  assert (H : Errors.transactions_served Playback.response_with_status 5
                broken_feed 7
              = Errors.Failed
                  (Errors.Replied
                     (Some (<["status_code"%string := "stale"%string]>
                              {[ "error_code"%string := "503"%string ]}))
                     {| Errors.error :=
                          <["status_code"%string := "503"%string]>
                            {[ "error_code"%string := "503"%string ]} |}))
    by (vm_compute; reflexivity).
  exact (error_body_has_the_status Playback.response_with_status 5 broken_feed 7
           _ _ H).
Defined.

Lemma transfer_create_uses_the_authorization_witness :
  Transfer.response (Transfer.transfer_authorize Transfer.at_startup Playback.two_accounts)
  = Transfer.JsonAuthorization (Err := string) (Transfer.mkAuthorization "auth-1") /\
  exists first rest res more,
    (Transfer.accountsGet Playback.two_accounts None).1 = Resolves (first :: rest) /\
    Transfer.events
      (Transfer.transfer_create
         (Transfer.globals
            (Transfer.transfer_authorize Transfer.at_startup Playback.two_accounts))
         (Transfer.world
            (Transfer.transfer_authorize Transfer.at_startup Playback.two_accounts)))
    = Transfer.EvTransfer
        {| Transfer.tr_access_token := None;
           Transfer.tr_account_id := Some (Transfer.account_id first);
           Transfer.tr_authorization_id := Some "auth-1"%string;
           Transfer.tr_description := "Debit" |} res :: more.
Proof.
  assert (H : Transfer.response
                (Transfer.transfer_authorize Transfer.at_startup Playback.two_accounts)
              = Transfer.JsonAuthorization (Err := string)
                  (Transfer.mkAuthorization "auth-1")) by reflexivity.
  split; [exact H|].
  exact (transfer_create_uses_the_authorization Transfer.at_startup
           Playback.two_accounts (Transfer.mkAuthorization "auth-1") H).
Defined.

Lemma failed_authorization_leaves_the_account_set_witness :
  Transfer.response (Transfer.transfer_authorize Transfer.at_startup Playback.refused)
  = Transfer.Next (Transfer.Rejection "refused"%string) /\
  Transfer.ACCOUNT_ID
    (Transfer.globals (Transfer.transfer_authorize Transfer.at_startup Playback.refused))
  = Some "acc-1"%string /\
  Transfer.AUTHORIZATION_ID
    (Transfer.globals (Transfer.transfer_authorize Transfer.at_startup Playback.refused))
  = None.
Proof.
  assert (H : Transfer.response
                (Transfer.transfer_authorize Transfer.at_startup Playback.refused)
              = Transfer.Next (Transfer.Rejection "refused"%string))
    by reflexivity.
  split; [exact H|].
  destruct (failed_authorization_leaves_the_account_set Transfer.at_startup
              Playback.refused _ H) as (Hauth & _ & _ & Hacc).
  split; [|exact Hauth].
  exact (proj1 (Hacc (Transfer.mkAccount "acc-1") [] eq_refl)).
Defined.

End MoreScenarios.
